(** * edx-rbac: the access-decision helpers of [edx_rbac/utils.py]

    A shallow embedding of the four functions of [utils.py]

    - [feature_roles_from_jwt]                      (Claim Role Extractor)
    - [request_user_has_implicit_access_via_jwt]    (Access Evaluator, claims path)
    - [user_has_access_via_database]                (Access Evaluator, persistence path)
    - [create_role_auth_claim_for_user]             (Claim Builder)

    together with the properties the specification states about them.

    Python dictionaries are finite maps ([gmap]), Python sets are finite sets
    ([gset]), Python lists are lists.  The calls a function makes to its
    collaborators (the extractor, the ORM, [importlib], the app registry) and
    the exceptions it lets through are kept in a small monad [Py]. *)

From stdpp Require Import gmap strings list fin_maps.
From Stdlib Require Import Ascii String.

Open Scope string_scope.
Open Scope list_scope.

(** ** Effects: collaborator calls and exceptions *)

(** The exceptions that can leave the functions of [utils.py].  An exception
    class stands for its subclasses too ([ModuleNotFoundError] is an
    [ImportError]); [OtherException] is any exception that is none of the
    classes named here. *)
Inductive exn : Type :=
| ValueError      (* unpacking [rsplit]; [importlib] on an empty module name *)
| TypeError       (* [importlib] on a relative name; calling what is no role source *)
| ImportError     (* [importlib.import_module]: no such module *)
| AttributeError  (* [getattr(module, func_name)]; [get] on [None] *)
| LookupError     (* [apps.get_model] *)
| OtherException (name : string).

(** The calls to collaborators, in the order they are made. *)
Inductive event : Type :=
| CallFeatureRoles (decoded_jwt : option (gmap string (list string)))
| QueryFilter (user_pk : nat) (role_name : string)
| ImportModule (module_name : string)
| GetModel (app_label model_name : string).

Inductive outcome (A : Type) : Type :=
| Return (a : A)
| Raise (e : exn).

Arguments Return {A} a.
Arguments Raise {A} e.

(** A run of a Python function: the calls it made and how it ended. *)
Record Py (A : Type) : Type := MkPy { trace : list event; result : outcome A }.

Arguments MkPy {A} trace result.
Arguments trace {A} _.
Arguments result {A} _.

#[global] Instance Py_ret : MRet Py := λ A a, MkPy [] (Return a).

#[global] Instance Py_bind : MBind Py := λ A B k m,
  match result m with
  | Return a => MkPy (trace m ++ trace (k a)) (result (k a))
  | Raise e => MkPy (trace m) (Raise e)
  end.

Definition emit (e : event) : Py unit := MkPy [e] (Return tt).

Definition raise {A : Type} (e : exn) : Py A := MkPy [] (Raise e).

(** [try: body except <handled>: handler] *)
Definition try_except {A : Type} (body : Py A) (handled : exn → bool) (handler : Py A) : Py A :=
  match result body with
  | Return a => body
  | Raise e =>
      if handled e
      then MkPy (trace body ++ trace handler) (result handler)
      else body
  end.

(** ** Strings *)

(** [s.partition(sep)] for a one-character separator: the part before the
    first occurrence, the separator, the part after it; the whole string and
    two empty strings when the separator does not occur. *)
Fixpoint partition (sep : ascii) (s : string) : string * string * string :=
  match s with
  | EmptyString => ("", "", "")
  | String c rest =>
      if Ascii.eqb c sep then ("", String sep "", rest)
      else let '(before, found, after) := partition sep rest in
           (String c before, found, after)
  end.

(** [s.rsplit(sep, 1)] for a one-character separator, unpacked into two
    names: [None] stands for the one-element list Python returns when the
    separator does not occur (the unpacking then raises [ValueError]). *)
Fixpoint rsplit1 (sep : ascii) (s : string) : option (string * string) :=
  match s with
  | EmptyString => None
  | String c rest =>
      match rsplit1 sep rest with
      | Some (before, after) => Some (String c before, after)
      | None => if Ascii.eqb c sep then Some ("", rest) else None
      end
  end.

(** [bool(s)] for a string. *)
Definition str_truthy (s : string) : bool := negb (String.eqb s "").

(** [bool(context)] for an optional context argument ([None] or a string). *)
Definition context_truthy (context : option string) : bool :=
  match context with
  | None => false
  | Some s => str_truthy s
  end.

(** ** Configuration and data *)

(** The Django settings the module reads. *)
Record Settings : Type := {
  SYSTEM_TO_FEATURE_ROLE_MAPPING : gmap string (list string);
  SYSTEM_WIDE_ROLE_CLASSES : list string
}.

Definition ALL_ACCESS_CONTEXT : string := "*".

(** A decoded JWT: a dictionary whose claims hold sequences of strings, as the
    ['roles'] claim does; [None] is Python's [None]. *)
Abbreviation jwt := (gmap string (list string)) (only parsing).

(** [bool(decoded_jwt)] *)
Definition jwt_truthy (decoded_jwt : option jwt) : bool :=
  match decoded_jwt with
  | None => false
  | Some d => negb (bool_decide (d = ∅))
  end.

(** [context in contexts] for a list of strings; [None] equals no string. *)
Definition context_in_list (context : option string) (contexts : list string) : bool :=
  match context with
  | None => false
  | Some c => bool_decide (c ∈ contexts)
  end.

(** [context in contexts] for a set of strings. *)
Definition context_in_set (context : option string) (contexts : gset string) : bool :=
  match context with
  | None => false
  | Some c => bool_decide (c ∈ contexts)
  end.

(** ** Claim Role Extractor *)

(** [feature_roles[role].append(context_in_jwt)] on a [defaultdict(list)]. *)
Definition defaultdict_append (feature_roles : gmap string (list string))
    (role context_in_jwt : string) : gmap string (list string) :=
  <[role := default [] (feature_roles !! role) ++ [context_in_jwt]]> feature_roles.

(** The body of the outer loop of [feature_roles_from_jwt]. *)
Definition feature_roles_step (settings : Settings)
    (feature_roles : gmap string (list string)) (role_data : string)
    : gmap string (list string) :=
  let '(role_in_jwt, _, context_in_jwt) := partition ":" role_data in
  let mapped_roles := default [] (SYSTEM_TO_FEATURE_ROLE_MAPPING settings !! role_in_jwt) in
  foldl (λ feature_roles role, defaultdict_append feature_roles role context_in_jwt)
        feature_roles mapped_roles.

(** The loop of [feature_roles_from_jwt] over the roles claim. *)
Definition feature_roles_of_claim (settings : Settings) (jwt_roles_claim : list string)
    : gmap string (list string) :=
  foldl (feature_roles_step settings) ∅ jwt_roles_claim.

(** [decoded_jwt.get('roles', [])]; [None] has no [get]. *)
Definition jwt_get_roles (decoded_jwt : option jwt) : Py (list string) :=
  match decoded_jwt with
  | None => raise AttributeError
  | Some d => mret (default [] (d !! "roles"))
  end.

Definition feature_roles_from_jwt (settings : Settings) (decoded_jwt : option jwt)
    : Py (gmap string (list string)) :=
  _ ← emit (CallFeatureRoles decoded_jwt);
  jwt_roles_claim ← jwt_get_roles decoded_jwt;
  mret (feature_roles_of_claim settings jwt_roles_claim).

(** ** Access Evaluator, claims path *)

Definition request_user_has_implicit_access_via_jwt (settings : Settings)
    (decoded_jwt : option jwt) (role_name : string) (context : option string) : Py bool :=
  if negb (jwt_truthy decoded_jwt) then mret false
  else
    feature_roles ← feature_roles_from_jwt settings decoded_jwt;
    match feature_roles !! role_name with
    | Some contexts =>
        if negb (context_truthy context) then mret true
        else mret (context_in_list context contexts
                   || context_in_list (Some ALL_ACCESS_CONTEXT) contexts)
    | None => mret false
    end.

(** ** Access Evaluator, persistence path *)

(** A user object; [is_anonymous = None] is a user object without the
    attribute. *)
Record User : Type := { pk : nat; is_anonymous : option bool }.

(** What [assignment.get_context()] returns: one string, or several. *)
Inductive assignment_context : Type :=
| Single (context : string)
| Many (contexts : list string).

(** What a role source yields next to a role string: [None], one string, or
    a non-string iterable of strings.  Of an iterable the code uses its truth
    value and its items: [Items] is a list, a tuple or another sized
    collection, which is falsy when it is empty; [Iterator] is an iterator
    or a generator, which is truthy whatever it yields. *)
Inductive source_context : Type :=
| NoContext
| Scalar (context : string)
| Items (contexts : list string)
| Iterator (contexts : list string).

Record RoleAssignment : Type := {
  assignment_user : nat;
  role__name : string;
  get_context : assignment_context
}.

(** A role assignment model class: its rows (behind [objects]) and its
    [get_assignments] class method.  A role source is given by what calling
    it with a user and iterating over the result does: the (role string,
    context) pairs yielded, or the exception raised on the way (so a class
    without [get_assignments] is one whose [get_assignments] raises
    [AttributeError]). *)
Record RoleAssignmentClass : Type := {
  objects : list RoleAssignment;
  get_assignments : User → outcome (list (string * source_context))
}.

(** [getattr(user, 'is_anonymous', False)] *)
Definition getattr_is_anonymous (user : User) : bool := default false (is_anonymous user).

(** The rows [objects.filter(user=user, role__name=role_name)] selects. *)
Definition matching_assignments (role_assignment_class : RoleAssignmentClass)
    (user : User) (role_name : string) : list RoleAssignment :=
  List.filter (λ a, Nat.eqb (assignment_user a) (pk user) && String.eqb (role__name a) role_name)
              (objects role_assignment_class).

Definition objects_filter (role_assignment_class : RoleAssignmentClass)
    (user : User) (role_name : string) : Py (list RoleAssignment) :=
  _ ← emit (QueryFilter (pk user) role_name);
  mret (matching_assignments role_assignment_class user role_name).

(** The body of the loop over the assignments. *)
Definition assigned_contexts_step (assigned_contexts : gset string)
    (assignment : RoleAssignment) : gset string :=
  match get_context assignment with
  | Single context_in_database => assigned_contexts ∪ {[context_in_database]}
  | Many context_in_database =>
      foldl (λ s c, s ∪ {[c]}) assigned_contexts context_in_database
  end.

Definition user_has_access_via_database (user : User) (role_name : string)
    (role_assignment_class : RoleAssignmentClass) (context : option string) : Py bool :=
  if getattr_is_anonymous user then mret false
  else
    role_assignments ← objects_filter role_assignment_class user role_name;
    if bool_decide (role_assignments = []) then mret false
    else if negb (context_truthy context) then mret true
    else
      let assigned_contexts := foldl assigned_contexts_step ∅ role_assignments in
      mret (context_in_set context assigned_contexts
            || context_in_set (Some ALL_ACCESS_CONTEXT) assigned_contexts).

(** ** Claim Builder *)

(** A role source, or any other object a locator may name: given a user, the
    pairs that calling it and iterating over the result yields, or the
    exception raised on the way ([TypeError] for an object that cannot be
    called or whose result cannot be iterated). *)
Abbreviation role_func := (User → outcome (list (string * source_context))) (only parsing).

(** The process the builder runs in.  [import_outcome name] is what
    [importlib.import_module(name)] does: it returns the module, given by
    its attributes, or raises ([ImportError] when there is no such module,
    [ValueError] for an empty name, [TypeError] for a relative name,
    whatever the module raises while it is imported).  [app_models] is the
    app registry: app label and model name to the model class. *)
Record Runtime : Type := {
  import_outcome : string → outcome (gmap string role_func);
  app_models : gmap (string * string) RoleAssignmentClass
}.

(** A call that makes no call of its own to a collaborator. *)
Definition run_outcome {A : Type} (o : outcome A) : Py A := MkPy [] o.

(** [importlib.import_module(module_name)] *)
Definition import_module (rt : Runtime) (module_name : string) : Py (gmap string role_func) :=
  _ ← emit (ImportModule module_name);
  run_outcome (import_outcome rt module_name).

(** [getattr(module, func_name)] *)
Definition getattr (module : gmap string role_func) (func_name : string) : Py role_func :=
  match module !! func_name with
  | Some f => mret f
  | None => raise AttributeError
  end.

(** [apps.get_model(app_label, model_name)] *)
Definition get_model (rt : Runtime) (app_label model_name : string) : Py RoleAssignmentClass :=
  _ ← emit (GetModel app_label model_name);
  match app_models rt !! (app_label, model_name) with
  | Some model => mret model
  | None => raise LookupError
  end.

(** [module_name, func_name = system_role_loc.rsplit('.', 1)] *)
Definition unpack_rsplit (system_role_loc : string) : Py (string * string) :=
  match rsplit1 "." system_role_loc with
  | Some names => mret names
  | None => raise ValueError
  end.

(** [except (ImportError, AttributeError)] *)
Definition is_import_or_attribute_error (e : exn) : bool :=
  match e with
  | ImportError | AttributeError => true
  | _ => false
  end.

(** The [try]/[except] that turns a locator into [role_func]. *)
Definition resolve_role_func (rt : Runtime) (system_role_loc : string) : Py role_func :=
  names ← unpack_rsplit system_role_loc;
  let module_name := names.1 in
  let func_name := names.2 in
  try_except
    (module ← import_module rt module_name; getattr module func_name)
    is_import_or_attribute_error
    (module ← get_model rt module_name func_name; mret (get_assignments module)).

(** [bool(context)] for what a role source yields. *)
Definition source_context_truthy (context : source_context) : bool :=
  match context with
  | NoContext => false
  | Scalar s => str_truthy s
  | Items [] => false
  | Items (_ :: _) => true
  | Iterator _ => true
  end.

(** ['{}:{}'.format(role_string, context)] *)
Definition format_contextual_role (role_string context : string) : string :=
  role_string +:+ ":" +:+ context.

(** The inner function [append_role_auth_claim]; the list it appends to is
    passed and returned. *)
Definition append_role_auth_claim (role_auth_claim : list string)
    (role_string : string) (context : option string) : list string :=
  if context_truthy context
  then role_auth_claim ++ [format_contextual_role role_string (default "" context)]
  else role_auth_claim ++ [role_string].

(** The body of the loop over what [role_func(user)] yields. *)
Definition role_auth_claim_step (role_auth_claim : list string)
    (yielded : string * source_context) : list string :=
  let '(role_string, context) := yielded in
  if source_context_truthy context then
    match context with
    | Scalar s => append_role_auth_claim role_auth_claim role_string (Some s)
    | Items items | Iterator items =>
        foldl (λ role_auth_claim item,
                 append_role_auth_claim role_auth_claim role_string (Some item))
              role_auth_claim items
    | NoContext => role_auth_claim (* [None] is not truthy *)
    end
  else append_role_auth_claim role_auth_claim role_string None.

(** [for role_string, context in role_func(user): ...] *)
Definition role_func_loop (user : User) (role_func : role_func)
    (role_auth_claim : list string) : Py (list string) :=
  yielded ← run_outcome (role_func user);
  mret (foldl role_auth_claim_step role_auth_claim yielded).

(** The loop over [settings.SYSTEM_WIDE_ROLE_CLASSES]. *)
Fixpoint role_classes_loop (rt : Runtime) (user : User) (locs : list string)
    (role_auth_claim : list string) : Py (list string) :=
  match locs with
  | [] => mret role_auth_claim
  | system_role_loc :: rest =>
      role_func ← resolve_role_func rt system_role_loc;
      role_auth_claim ← role_func_loop user role_func role_auth_claim;
      role_classes_loop rt user rest role_auth_claim
  end.

Definition create_role_auth_claim_for_user (settings : Settings) (rt : Runtime)
    (user : User) : Py (list string) :=
  role_classes_loop rt user (SYSTEM_WIDE_ROLE_CLASSES settings) [].

(** ** The specification's reference definitions

    These follow the words of the specification, not the code; the theorems
    below compare them with the functions above. *)

(** "split on the first colon into (role-name, context-or-empty)" *)
Fixpoint before_first (sep : ascii) (s : string) : string :=
  match s with
  | EmptyString => ""
  | String c rest => if Ascii.eqb c sep then "" else String c (before_first sep rest)
  end.

Fixpoint after_first (sep : ascii) (s : string) : string :=
  match s with
  | EmptyString => ""
  | String c rest => if Ascii.eqb c sep then rest else after_first sep rest
  end.

Definition reference_split (entry : string) : string * string :=
  (before_first ":" entry, after_first ":" entry).

(** "for every feature role it maps to, the context is appended to that
    feature role's context list": the appends one entry stands for; none when
    the role name has no configured mapping. *)
Definition reference_entry_appends (settings : Settings) (entry : string)
    : list (string * string) :=
  let '(role_name, context) := reference_split entry in
  match SYSTEM_TO_FEATURE_ROLE_MAPPING settings !! role_name with
  | None => []
  | Some feature_roles => (λ feature_role, (feature_role, context)) <$> feature_roles
  end.

(** Appending one context to a feature role's list, a new list when the
    feature role has none yet. *)
Definition reference_append (out : gmap string (list string)) (a : string * string)
    : gmap string (list string) :=
  match out !! a.1 with
  | None => <[a.1 := [a.2]]> out
  | Some contexts => <[a.1 := contexts ++ [a.2]]> out
  end.

(** The reference Claim Role Extractor. *)
Definition reference_feature_roles (settings : Settings) (decoded_jwt : jwt)
    : gmap string (list string) :=
  let entries := match decoded_jwt !! "roles" with Some l => l | None => [] end in
  foldl reference_append ∅ (entries ≫= reference_entry_appends settings).

(** "each assignment's resolved context value, whether a single string or an
    iterable of strings, is unioned into one context set" *)
Definition resolved_contexts (assignment : RoleAssignment) : gset string :=
  match get_context assignment with
  | Single c => {[c]}
  | Many cs => list_to_set cs
  end.

Definition union_of_contexts (assignments : list RoleAssignment) : gset string :=
  ⋃ (resolved_contexts <$> assignments).

(** The decision once the assignments are known: denied without
    assignments, granted without a context, otherwise granted exactly when
    the context or the wildcard is in the union. *)
Definition assignments_grant (assignments : list RoleAssignment) (context : option string)
    : bool :=
  match assignments with
  | [] => false
  | _ :: _ =>
      if context_truthy context
      then context_in_set context (union_of_contexts assignments)
           || context_in_set (Some ALL_ACCESS_CONTEXT) (union_of_contexts assignments)
      else true
  end.

(** The pairs all configured role sources yield for a user, in locator order
    then yield order. *)
Fixpoint sources_yield (rt : Runtime) (user : User) (locs : list string)
    : Py (list (string * source_context)) :=
  match locs with
  | [] => mret []
  | system_role_loc :: rest =>
      role_func ← resolve_role_func rt system_role_loc;
      yielded ← run_outcome (role_func user);
      further ← sources_yield rt user rest;
      mret (yielded ++ further)
  end.

(** The contexts a yielded pair associates with its role string: the
    string, or the items of the iterable; for a null or empty context, which
    is a grant without a context, the empty context, which is how the
    extractor reads an entry without a context.  An iterator that yields
    nothing is not empty in that sense: it associates no context at all. *)
Definition advertised_contexts (context : source_context) : list string :=
  match context with
  | NoContext => [""]
  | Scalar s => [s]
  | Items [] => [""]
  | Items (c :: cs) => c :: cs
  | Iterator cs => cs
  end.



(** The first attempt on a locator, [getattr(import_module(module_name),
    func_name)]: the object found, or the exception raised. *)
Definition first_attempt (rt : Runtime) (module_name func_name : string)
    : outcome role_func :=
  match import_outcome rt module_name with
  | Return module =>
      match module !! func_name with
      | Some f => Return f
      | None => Raise AttributeError
      end
  | Raise e => Raise e
  end.

(** What [importlib.import_module] does with a name when [sys_modules] are the
    modules that can be imported and importing them raises nothing. *)
Definition importlib_outcome (sys_modules : gmap string (gmap string role_func))
    (name : string) : outcome (gmap string role_func) :=
  match name with
  | EmptyString => Raise ValueError
  | String c _ =>
      if Ascii.eqb c "." then Raise TypeError
      else match sys_modules !! name with
           | Some module => Return module
           | None => Raise ImportError
           end
  end.

(** The entry for a role string and one context string: the role string
    alone when the context string is empty. *)
Definition claim_entry (role_string item : string) : string :=
  if str_truthy item then format_contextual_role role_string item else role_string.

(** Whether a character occurs in a string. *)
Fixpoint occurs (c : ascii) (s : string) : bool :=
  match s with
  | EmptyString => false
  | String c' rest => Ascii.eqb c' c || occurs c rest
  end.

(** ** Notions used to state further properties *)

(** The role name and the context of an entry of the roles claim, as the
    extractor reads them. *)
Definition entry_role (role_data : string) : string := (partition ":" role_data).1.1.

Definition entry_context (role_data : string) : string := (partition ":" role_data).2.

(** The contexts one entry adds to the list of a feature role: its context,
    once for each time the feature role is listed for its role name. *)
Definition entry_contexts_for (settings : Settings) (feature_role role_data : string)
    : list string :=
  (λ _, entry_context role_data)
    <$> filter (λ role, role = feature_role)
          (default [] (SYSTEM_TO_FEATURE_ROLE_MAPPING settings !! entry_role role_data)).

(** A dictionary entry after appending contexts to it: untouched when there
    is nothing to append. *)
Definition lookup_extend (o : option (list string)) (contexts : list string)
    : option (list string) :=
  match contexts with
  | [] => o
  | _ :: _ => Some (default [] o ++ contexts)
  end.

(** A stored assignment is one of the user for the role name. *)
Definition assignment_matches (user : User) (role_name : string) (a : RoleAssignment) : Prop :=
  assignment_user a = pk user ∧ role__name a = role_name.

(** The context of a stored assignment covers a context string: it is that
    string, or a sequence that contains it. *)
Definition assignment_covers (a : RoleAssignment) (x : string) : Prop :=
  match get_context a with
  | Single s => s = x
  | Many cs => x ∈ cs
  end.

(** A locator that can be split, for which the first attempt finds a source
    or fails with an [ImportError] or [AttributeError] while the app registry
    has the model, and whose source yields its pairs for the user without
    raising. *)
Definition locator_yields (rt : Runtime) (user : User) (system_role_loc : string) : Prop :=
  ∃ module_name func_name source pairs,
    rsplit1 "." system_role_loc = Some (module_name, func_name)
    ∧ source user = Return pairs
    ∧ (first_attempt rt module_name func_name = Return source
       ∨ ∃ e model,
           first_attempt rt module_name func_name = Raise e
           ∧ (e = ImportError ∨ e = AttributeError)
           ∧ app_models rt !! (module_name, func_name) = Some model
           ∧ source = get_assignments model).

(** ** Example configuration (the scenarios of the specification) *)

Definition example_settings : Settings := {|
  SYSTEM_TO_FEATURE_ROLE_MAPPING :=
    {[ "enterprise_admin" := ["coupon-management"; "data_api_access"];
       "enterprise_learner" := [];
       "coupon-manager" := ["coupon-management"] ]};
  SYSTEM_WIDE_ROLE_CLASSES := ["roles.sources.coupon_roles"]
|}.

Definition example_jwt (roles : list string) : jwt := {[ "roles" := roles ]}.

Definition example_user : User := {| pk := 7; is_anonymous := Some false |}.

Definition example_anonymous : User := {| pk := 7; is_anonymous := Some true |}.

Definition example_plain_user : User := {| pk := 7; is_anonymous := None |}.

Definition example_assignments : RoleAssignmentClass := {|
  objects := [ {| assignment_user := 7; role__name := "coupon-management";
                  get_context := Many ["acct-1"; "acct-2"] |};
               {| assignment_user := 8; role__name := "coupon-management";
                  get_context := Single "*" |} ];
  get_assignments := λ _, Return [("coupon-manager", Items ["acct-1"; "acct-2"])]
|}.

Definition example_runtime (yielded : list (string * source_context)) : Runtime := {|
  import_outcome :=
    importlib_outcome
      {[ "roles.sources" := {[ "coupon_roles" := λ _ : User, Return yielded ]} ]};
  app_models := ∅
|}.

(** The example table with its rows in the other order and one of them
    twice. *)
Definition example_assignments_reordered : RoleAssignmentClass := {|
  objects := [ {| assignment_user := 8; role__name := "coupon-management";
                  get_context := Single "*" |};
               {| assignment_user := 7; role__name := "coupon-management";
                  get_context := Many ["acct-1"; "acct-2"] |};
               {| assignment_user := 8; role__name := "coupon-management";
                  get_context := Single "*" |} ];
  get_assignments := get_assignments example_assignments
|}.

(** The example table without the row of the other user. *)
Definition example_assignments_own : RoleAssignmentClass := {|
  objects := [ {| assignment_user := 7; role__name := "coupon-management";
                  get_context := Many ["acct-1"; "acct-2"] |} ];
  get_assignments := get_assignments example_assignments
|}.

(** A runtime in which the same locator names a function and a model. *)
Definition example_both_runtime : Runtime := {|
  import_outcome :=
    importlib_outcome
      {[ "roles" := {[ "Assignment" := λ _ : User, Return [("coupon-manager", NoContext)] ]} ]};
  app_models := {[ ("roles", "Assignment") := example_assignments ]}
|}.

(** A runtime in which the locator names a model only; the module
    [roles.models] has an attribute that is not a role source. *)
Definition example_model_runtime : Runtime := {|
  import_outcome :=
    importlib_outcome
      {[ "roles" := ∅;
         "roles.models" := {[ "Assignment" := λ _ : User, Raise TypeError ]} ]};
  app_models := {[ ("roles", "Assignment") := example_assignments ]}
|}.

Definition example_locator_settings (locs : list string) : Settings := {|
  SYSTEM_TO_FEATURE_ROLE_MAPPING := SYSTEM_TO_FEATURE_ROLE_MAPPING example_settings;
  SYSTEM_WIDE_ROLE_CLASSES := locs
|}.

(** * Properties *)

(** ** The monad *)

Lemma Py_eta {A : Type} (m : Py A) : MkPy (trace m) (result m) = m.
Proof. by destruct m. Qed.

Lemma Py_bind_ret_l {A B : Type} (a : A) (k : A → Py B) : mret a ≫= k = k a.
Proof. unfold mbind, Py_bind; simpl. apply Py_eta. Qed.

Lemma Py_bind_ret_r {A : Type} (m : Py A) : m ≫= mret = m.
Proof.
  destruct m as [t [a|e]]; unfold mbind, Py_bind; simpl; [|done].
  by rewrite app_nil_r.
Qed.

Lemma Py_bind_assoc {A B C : Type} (m : Py A) (k : A → Py B) (h : B → Py C) :
  (m ≫= k) ≫= h = m ≫= (λ a, k a ≫= h).
Proof.
  destruct m as [t [a|e]]; unfold mbind, Py_bind; simpl; [|done].
  destruct (k a) as [t' [b|e]]; simpl; [|done].
  by rewrite app_assoc.
Qed.

Lemma Py_bind_return {A B : Type} (t : list event) (a : A) (k : A → Py B) :
  MkPy t (Return a) ≫= k = MkPy (t ++ trace (k a)) (result (k a)).
Proof. done. Qed.

Lemma Py_bind_raise {A B : Type} (t : list event) (e : exn) (k : A → Py B) :
  MkPy t (Raise e) ≫= k = MkPy t (Raise e).
Proof. done. Qed.

Lemma Py_bind_ext {A B : Type} (m : Py A) (k h : A → Py B) :
  (∀ a, k a = h a) → m ≫= k = m ≫= h.
Proof.
  intros Hkh. destruct m as [t [a|e]]; [|done].
  by rewrite !Py_bind_return, Hkh.
Qed.

(** Unfolds the monad's operations in a run on known values. *)
Ltac py_run :=
  unfold try_except, mbind, Py_bind, mret, Py_ret, raise, emit; simpl.

(** ** Strings *)

Lemma str_truthy_false (s : string) : str_truthy s = false ↔ s = "".
Proof.
  unfold str_truthy. rewrite negb_false_iff. apply String.eqb_eq.
Qed.

Lemma str_truthy_true (s : string) : str_truthy s = true ↔ s ≠ "".
Proof.
  unfold str_truthy. rewrite negb_true_iff. apply String.eqb_neq.
Qed.

(** [partition] cuts where the reference split cuts. *)
Lemma partition_before_after (sep : ascii) (s : string) :
  (partition sep s).1.1 = before_first sep s ∧ (partition sep s).2 = after_first sep s.
Proof.
  induction s as [|c rest [IHb IHa]]; simpl; [done|].
  destruct (Ascii.eqb c sep); simpl; [done|].
  destruct (partition sep rest) as [[before found] after]; simpl in *.
  by rewrite IHb, IHa.
Qed.

Lemma before_first_app (sep : ascii) (r c : string) :
  occurs sep r = false → before_first sep (r +:+ String sep c) = r.
Proof.
  induction r as [|x r IH]; simpl.
  - intros _. by rewrite Ascii.eqb_refl.
  - intros [Hx Hr]%orb_false_elim. rewrite Hx. by rewrite IH.
Qed.

Lemma after_first_app (sep : ascii) (r c : string) :
  occurs sep r = false → after_first sep (r +:+ String sep c) = c.
Proof.
  induction r as [|x r IH]; simpl.
  - intros _. by rewrite Ascii.eqb_refl.
  - intros [Hx Hr]%orb_false_elim. rewrite Hx. by apply IH.
Qed.

Lemma before_first_absent (sep : ascii) (r : string) :
  occurs sep r = false → before_first sep r = r.
Proof.
  induction r as [|x r IH]; simpl; [done|].
  intros [Hx Hr]%orb_false_elim. rewrite Hx. by rewrite IH.
Qed.

Lemma after_first_absent (sep : ascii) (r : string) :
  occurs sep r = false → after_first sep r = "".
Proof.
  induction r as [|x r IH]; simpl; [done|].
  intros [Hx Hr]%orb_false_elim. rewrite Hx. by apply IH.
Qed.

(** ** Claim Role Extractor *)

Lemma defaultdict_append_reference (out : gmap string (list string)) (role context : string) :
  defaultdict_append out role context = reference_append out (role, context).
Proof.
  unfold defaultdict_append, reference_append; simpl.
  by destruct (out !! role).
Qed.

Lemma feature_roles_step_reference (settings : Settings)
    (out : gmap string (list string)) (entry : string) :
  feature_roles_step settings out entry
  = foldl reference_append out (reference_entry_appends settings entry).
Proof.
  unfold feature_roles_step, reference_entry_appends, reference_split.
  destruct (partition_before_after ":" entry) as [Hb Ha].
  destruct (partition ":" entry) as [[role_in_jwt found] context_in_jwt]; simpl in *.
  rewrite <- Hb, <- Ha.
  destruct (SYSTEM_TO_FEATURE_ROLE_MAPPING settings !! role_in_jwt) as [mapped|]; simpl; [|done].
  revert out. induction mapped as [|role mapped IH]; intros out; simpl; [done|].
  by rewrite IH, defaultdict_append_reference.
Qed.

Lemma feature_roles_loop_reference (settings : Settings)
    (entries : list string) (out : gmap string (list string)) :
  foldl (feature_roles_step settings) out entries
  = foldl reference_append out (entries ≫= reference_entry_appends settings).
Proof.
  revert out. induction entries as [|entry entries IH]; intros out; simpl; [done|].
  by rewrite IH, foldl_app, feature_roles_step_reference.
Qed.

Lemma feature_roles_of_empty_jwt (settings : Settings) :
  feature_roles_of_claim settings (default [] ((∅ : gmap string (list string)) !! "roles")) = ∅.
Proof. by rewrite lookup_empty. Qed.

(** What the extractor returns for a dictionary. *)
Lemma feature_roles_from_jwt_Some (settings : Settings) (d : gmap string (list string)) :
  feature_roles_from_jwt settings (Some d)
  = MkPy [CallFeatureRoles (Some d)]
         (Return (feature_roles_of_claim settings (default [] (d !! "roles")))).
Proof. done. Qed.

Lemma feature_roles_from_jwt_None (settings : Settings) :
  feature_roles_from_jwt settings None = MkPy [CallFeatureRoles None] (Raise AttributeError).
Proof. done. Qed.

(** A token that yields a feature-role map is a dictionary, and one with a
    feature role in it is not empty. *)
Lemma extracted_role_token (settings : Settings) (T : option (gmap string (list string)))
    (m : gmap string (list string)) (R : string) :
  result (feature_roles_from_jwt settings T) = Return m →
  is_Some (m !! R) →
  ∃ d, T = Some d ∧ d ≠ ∅ ∧ m = feature_roles_of_claim settings (default [] (d !! "roles")).
Proof.
  destruct T as [d|]; [|done].
  rewrite feature_roles_from_jwt_Some; simpl. intros [= <-] HR.
  exists d. split; [done|]. split; [|done].
  intros ->. rewrite feature_roles_of_empty_jwt, lookup_empty in HR.
  by destruct HR.
Qed.

(** The claims-path evaluator on a non-empty dictionary. *)
Lemma claims_path_non_empty (settings : Settings) (d : gmap string (list string))
    (role_name : string) (context : option string) :
  d ≠ ∅ →
  request_user_has_implicit_access_via_jwt settings (Some d) role_name context
  = MkPy [CallFeatureRoles (Some d)]
      (Return
         match feature_roles_of_claim settings (default [] (d !! "roles")) !! role_name with
         | Some contexts =>
             if negb (context_truthy context) then true
             else context_in_list context contexts
                  || context_in_list (Some ALL_ACCESS_CONTEXT) contexts
         | None => false
         end).
Proof.
  intros Hd. unfold request_user_has_implicit_access_via_jwt, jwt_truthy.
  rewrite bool_decide_eq_false_2 by done. cbn [negb].
  rewrite feature_roles_from_jwt_Some, Py_bind_return.
  destruct (_ !! role_name) as [contexts|]; [|done].
  by destruct (negb (context_truthy context)).
Qed.

(** ** Claims about the Claim Role Extractor and the claims path *)

(** C2.  On every decoded token (a dictionary) the extractor returns, without
    raising, exactly the reference map: a missing ['roles'] entry counts as
    an empty sequence, every entry is split on its first colon, and for every
    feature role the mapping gives for the role name the context is appended
    to that feature role's list, in order and with duplicates; an entry whose
    role name is not mapped appends nothing. *)
Theorem feature_roles_from_jwt_refines_reference (settings : Settings)
    (d : gmap string (list string)) :
  feature_roles_from_jwt settings (Some d)
  = MkPy [CallFeatureRoles (Some d)] (Return (reference_feature_roles settings d)).
Proof.
  rewrite feature_roles_from_jwt_Some. do 2 f_equal.
  unfold feature_roles_of_claim, reference_feature_roles.
  rewrite feature_roles_loop_reference.
  by destruct (d !! "roles").
Qed.

(** C1, as amended.  When the map extracted from a token holds the feature
    role [R] with the context list [contexts]: the evaluation without a
    context is granted; the evaluation for each listed context is granted;
    the evaluation for a non-empty context that is not listed is denied
    provided the wildcard is not listed either; when the wildcard is
    listed, the evaluation is granted for every context; and the evaluation
    for the empty context string, which counts as no context, is granted
    whatever is listed. *)
Theorem claims_path_role_present (settings : Settings)
    (T : option (gmap string (list string))) (m : gmap string (list string))
    (R : string) (contexts : list string) :
  result (feature_roles_from_jwt settings T) = Return m →
  m !! R = Some contexts →
  result (request_user_has_implicit_access_via_jwt settings T R None) = Return true
  ∧ (∀ ci, ci ∈ contexts →
       result (request_user_has_implicit_access_via_jwt settings T R (Some ci)) = Return true)
  ∧ (∀ c, c ≠ "" → c ∉ contexts → ALL_ACCESS_CONTEXT ∉ contexts →
       result (request_user_has_implicit_access_via_jwt settings T R (Some c)) = Return false)
  ∧ (ALL_ACCESS_CONTEXT ∈ contexts →
       ∀ c, result (request_user_has_implicit_access_via_jwt settings T R c) = Return true)
  ∧ result (request_user_has_implicit_access_via_jwt settings T R (Some EmptyString))
    = Return true.
Proof.
  intros Hm HR.
  destruct (extracted_role_token settings T m R Hm) as (d & -> & Hd & ->); [by eexists|].
  repeat split.
  - rewrite claims_path_non_empty by done. simpl. by rewrite HR.
  - intros ci Hci. rewrite claims_path_non_empty by done. simpl. rewrite HR.
    destruct (negb (str_truthy ci)); [done|].
    by rewrite (bool_decide_eq_true_2 _ Hci).
  - intros c Hc Hnot Hall. rewrite claims_path_non_empty by done. simpl. rewrite HR.
    apply str_truthy_true in Hc. rewrite Hc. simpl.
    by rewrite (bool_decide_eq_false_2 _ Hnot), (bool_decide_eq_false_2 _ Hall).
  - intros Hall c. rewrite claims_path_non_empty by done. simpl. rewrite HR.
    destruct (negb (context_truthy c)); [done|].
    by rewrite (bool_decide_eq_true_2 _ Hall), orb_true_r.
  - rewrite claims_path_non_empty by done. simpl. by rewrite HR.
Qed.

Lemma claims_path_role_present_witness :
  let T := Some (example_jwt ["enterprise_admin:acct-42"]) in
  result (feature_roles_from_jwt example_settings T)
    = Return {[ "coupon-management" := ["acct-42"]; "data_api_access" := ["acct-42"] ]}
  ∧ result (request_user_has_implicit_access_via_jwt example_settings T
              "coupon-management" None) = Return true
  ∧ result (request_user_has_implicit_access_via_jwt example_settings T
              "coupon-management" (Some "acct-42")) = Return true
  ∧ result (request_user_has_implicit_access_via_jwt example_settings T
              "coupon-management" (Some "acct-99")) = Return false
  ∧ result (request_user_has_implicit_access_via_jwt example_settings T
              "coupon-management" (Some EmptyString)) = Return true.
Proof.
  intros T.
  assert (Hm : result (feature_roles_from_jwt example_settings T)
    = Return {[ "coupon-management" := ["acct-42"]; "data_api_access" := ["acct-42"] ]})
    by (vm_compute; reflexivity).
  assert (HR : ({[ "coupon-management" := ["acct-42"]; "data_api_access" := ["acct-42"] ]}
                 : gmap string (list string)) !! "coupon-management" = Some ["acct-42"])
    by (vm_compute; reflexivity).
  destruct (claims_path_role_present example_settings T _ _ _ Hm HR)
    as (Hnone & Hlisted & Hdenied & _ & Hempty).
  split; [exact Hm|]. split; [exact Hnone|]. split; [|split].
  - apply Hlisted. apply list_elem_of_singleton. reflexivity.
  - apply Hdenied.
    + discriminate.
    + intros H%list_elem_of_singleton. discriminate.
    + intros H%list_elem_of_singleton. discriminate.
  - exact Hempty.
Defined.

(** C1 as stated does not hold: a context that is neither listed nor the
    wildcard is granted when the wildcard is listed (Scenario B), and the
    empty context is granted whatever is listed. *)
Lemma claims_path_unlisted_context_granted :
  (let T := Some (example_jwt ["coupon-manager:*"]) in
   result (feature_roles_from_jwt example_settings T)
     = Return {[ "coupon-management" := ["*"] ]}
   ∧ ("any-context-string" ∉ ["*"])
   ∧ "any-context-string" ≠ ALL_ACCESS_CONTEXT
   ∧ result (request_user_has_implicit_access_via_jwt example_settings T
               "coupon-management" (Some "any-context-string")) = Return true)
  ∧
  (let T := Some (example_jwt ["coupon-manager:acct-1"]) in
   result (feature_roles_from_jwt example_settings T)
     = Return {[ "coupon-management" := ["acct-1"] ]}
   ∧ ("" ∉ ["acct-1"])
   ∧ "" ≠ ALL_ACCESS_CONTEXT
   ∧ result (request_user_has_implicit_access_via_jwt example_settings T
               "coupon-management" (Some "")) = Return true).
Proof.
  split; simpl.
  - split; [by vm_compute|]. split; [by intros H%list_elem_of_singleton|].
    split; [done|]. by vm_compute.
  - split; [by vm_compute|]. split; [by intros H%list_elem_of_singleton|].
    split; [done|]. by vm_compute.
Qed.

(** C5.  When the feature role is absent from the map extracted from the
    token, the claims-path evaluation returns denied, for every context and
    for no context, and raises nothing. *)
Theorem claims_path_role_absent (settings : Settings)
    (T : option (gmap string (list string))) (R : string) (c : option string) :
  (∀ m, result (feature_roles_from_jwt settings T) = Return m → m !! R = None) →
  result (request_user_has_implicit_access_via_jwt settings T R c) = Return false.
Proof.
  intros Habsent. destruct T as [d|]; [|done].
  destruct (decide (d = ∅)) as [->|Hd].
  - unfold request_user_has_implicit_access_via_jwt, jwt_truthy.
    by rewrite bool_decide_eq_true_2.
  - rewrite claims_path_non_empty by done. simpl.
    by rewrite (Habsent _ (f_equal result (feature_roles_from_jwt_Some settings d))).
Qed.

Lemma claims_path_role_absent_witness :
  let T := Some (example_jwt ["enterprise_admin:acct-42"]) in
  (∀ m, result (feature_roles_from_jwt example_settings T) = Return m →
        m !! "course-staff" = None)
  ∧ result (request_user_has_implicit_access_via_jwt example_settings T
              "course-staff" (Some "acct-42")) = Return false.
Proof.
  intros T.
  assert (Habsent : ∀ m, result (feature_roles_from_jwt example_settings T) = Return m →
                         m !! "course-staff" = None).
  { intros m Hm. injection Hm as <-. vm_compute. reflexivity. }
  split; [exact Habsent|].
  exact (claims_path_role_absent example_settings T "course-staff" (Some "acct-42") Habsent).
Defined.

(** C6.  For a null token and for an empty token the claims-path evaluation
    returns denied for every feature role and context; it returns at once:
    the extractor is not called and nothing is raised. *)
Theorem claims_path_empty_token (settings : Settings) (R : string) (c : option string) :
  request_user_has_implicit_access_via_jwt settings None R c = MkPy [] (Return false)
  ∧ request_user_has_implicit_access_via_jwt settings (Some ∅) R c = MkPy [] (Return false).
Proof.
  split; [done|].
  unfold request_user_has_implicit_access_via_jwt, jwt_truthy.
  by rewrite bool_decide_eq_true_2.
Qed.

(** ** Claims about the persistence path *)

Lemma foldl_add_contexts (cs : list string) (s : gset string) :
  foldl (λ s c, s ∪ {[c]}) s cs = s ∪ list_to_set cs.
Proof.
  revert s. induction cs as [|c cs IH]; intros s; simpl.
  - by rewrite (right_id_L ∅ (∪)).
  - by rewrite IH, (assoc_L (∪)).
Qed.

Lemma assigned_contexts_step_union (s : gset string) (assignment : RoleAssignment) :
  assigned_contexts_step s assignment = s ∪ resolved_contexts assignment.
Proof.
  unfold assigned_contexts_step, resolved_contexts.
  destruct (get_context assignment); [done|]. apply foldl_add_contexts.
Qed.

(** The loop over the assignments computes the union of their contexts. *)
Lemma assigned_contexts_union (assignments : list RoleAssignment) (s : gset string) :
  foldl assigned_contexts_step s assignments = s ∪ union_of_contexts assignments.
Proof.
  unfold union_of_contexts.
  revert s. induction assignments as [|a assignments IH]; intros s; simpl.
  - by rewrite (right_id_L ∅ (∪)).
  - by rewrite IH, assigned_contexts_step_union, (assoc_L (∪)).
Qed.

(** The persistence-path evaluator for a user that passes the anonymity
    check: one query, then the decision on the selected assignments. *)
Lemma database_path_authenticated (user : User) (role_name : string)
    (role_assignment_class : RoleAssignmentClass) (context : option string) :
  getattr_is_anonymous user = false →
  user_has_access_via_database user role_name role_assignment_class context
  = MkPy [QueryFilter (pk user) role_name]
      (Return (assignments_grant
                 (matching_assignments role_assignment_class user role_name) context)).
Proof.
  intros Hanon. unfold user_has_access_via_database, objects_filter.
  rewrite Hanon. rewrite Py_bind_assoc. unfold emit. rewrite Py_bind_return.
  rewrite Py_bind_ret_l.
  destruct (matching_assignments role_assignment_class user role_name) as [|a l] eqn:Hmatch.
  - done.
  - rewrite bool_decide_eq_false_2 by done. unfold assignments_grant.
    destruct (context_truthy context); cbn [negb]; [|done].
    rewrite assigned_contexts_union, (left_id_L ∅ (∪)).
    done.
Qed.

Lemma getattr_is_anonymous_false (user : User) :
  is_anonymous user ≠ Some true → getattr_is_anonymous user = false.
Proof.
  unfold getattr_is_anonymous. by destruct (is_anonymous user) as [[]|].
Qed.

(** C3, as amended.  For a user that is not anonymous, with [assignments]
    the persisted assignments of the user for the role name: when there are
    none the result is denied; when there are some, the result for a
    non-empty context [c] is granted exactly when [c] or the wildcard is in
    the union of the contexts the assignments resolve to (single strings and
    sequences of strings alike), and the result without a context is
    granted. *)
Theorem database_path_decision (user : User) (role_name : string)
    (role_assignment_class : RoleAssignmentClass) :
  is_anonymous user ≠ Some true →
  let assignments := matching_assignments role_assignment_class user role_name in
  (assignments = [] →
     ∀ context, result (user_has_access_via_database user role_name
                          role_assignment_class context) = Return false)
  ∧ (assignments ≠ [] →
     ∀ c, c ≠ "" →
       result (user_has_access_via_database user role_name role_assignment_class (Some c))
       = Return (bool_decide (c ∈ union_of_contexts assignments
                              ∨ ALL_ACCESS_CONTEXT ∈ union_of_contexts assignments)))
  ∧ (assignments ≠ [] →
     result (user_has_access_via_database user role_name role_assignment_class None)
     = Return true).
Proof.
  intros Hanon%getattr_is_anonymous_false assignments. subst assignments.
  repeat split.
  - intros Hnone context. rewrite database_path_authenticated by done. simpl.
    by rewrite Hnone.
  - intros Hsome c Hc%str_truthy_true.
    rewrite database_path_authenticated by done. simpl.
    destruct (matching_assignments role_assignment_class user role_name) as [|a l]; [done|].
    unfold assignments_grant, context_truthy, context_in_set. rewrite Hc. f_equal.
    by rewrite bool_decide_or.
  - intros Hsome. rewrite database_path_authenticated by done. simpl.
    by destruct (matching_assignments role_assignment_class user role_name).
Qed.

Lemma database_path_decision_witness :
  is_anonymous example_user ≠ Some true
  ∧ matching_assignments example_assignments example_user "coupon-management" ≠ []
  ∧ matching_assignments example_assignments example_user "data_api_access" = []
  ∧ result (user_has_access_via_database example_user "coupon-management"
              example_assignments (Some "acct-2")) = Return true
  ∧ result (user_has_access_via_database example_user "coupon-management"
              example_assignments (Some "acct-3")) = Return false
  ∧ result (user_has_access_via_database example_user "coupon-management"
              example_assignments None) = Return true
  ∧ result (user_has_access_via_database example_user "data_api_access"
              example_assignments (Some "acct-2")) = Return false.
Proof.
  assert (Hanon : is_anonymous example_user ≠ Some true) by discriminate.
  assert (Hsome : matching_assignments example_assignments example_user "coupon-management" ≠ [])
    by discriminate.
  assert (Hnone : matching_assignments example_assignments example_user "data_api_access" = [])
    by reflexivity.
  destruct (database_path_decision example_user "coupon-management" example_assignments Hanon)
    as (_ & Hctx & Hglobal).
  destruct (database_path_decision example_user "data_api_access" example_assignments Hanon)
    as (Hdenied & _ & _).
  split; [exact Hanon|]. split; [exact Hsome|]. split; [exact Hnone|].
  split; [|split; [|split]].
  - rewrite (Hctx Hsome "acct-2") by discriminate. vm_compute. reflexivity.
  - rewrite (Hctx Hsome "acct-3") by discriminate. vm_compute. reflexivity.
  - exact (Hglobal Hsome).
  - exact (Hdenied Hnone (Some "acct-2")).
Defined.

(** C3 as stated does not hold for an anonymous user that has matching
    assignments (denied although the context is in the union), nor for the
    empty context (granted although neither it nor the wildcard is in the
    union). *)
Lemma database_path_union_rule_exceptions :
  (matching_assignments example_assignments example_anonymous "coupon-management" ≠ []
   ∧ ("acct-2" ∈ union_of_contexts
                   (matching_assignments example_assignments example_anonymous "coupon-management"))
   ∧ result (user_has_access_via_database example_anonymous "coupon-management"
               example_assignments (Some "acct-2")) = Return false)
  ∧
  (matching_assignments example_assignments example_user "coupon-management" ≠ []
   ∧ ("" ∉ union_of_contexts
             (matching_assignments example_assignments example_user "coupon-management"))
   ∧ (ALL_ACCESS_CONTEXT
        ∉ union_of_contexts
            (matching_assignments example_assignments example_user "coupon-management"))
   ∧ result (user_has_access_via_database example_user "coupon-management"
               example_assignments (Some "")) = Return true).
Proof.
  split.
  - split; [done|]. split; [by vm_compute|]. by vm_compute.
  - split; [done|]. split; [by vm_compute|]. split; [by vm_compute|]. by vm_compute.
Qed.

(** C7.  For an anonymous user the persistence-path evaluator returns denied
    at once, for every role name and context and whatever assignments are
    stored: no query is made. *)
Theorem database_path_anonymous (user : User) (role_name : string)
    (role_assignment_class : RoleAssignmentClass) (context : option string) :
  is_anonymous user = Some true →
  user_has_access_via_database user role_name role_assignment_class context
  = MkPy [] (Return false).
Proof.
  intros Hanon. unfold user_has_access_via_database, getattr_is_anonymous.
  by rewrite Hanon.
Qed.

Lemma database_path_anonymous_witness :
  is_anonymous example_anonymous = Some true
  ∧ matching_assignments example_assignments example_anonymous "coupon-management" ≠ []
  ∧ user_has_access_via_database example_anonymous "coupon-management"
      example_assignments (Some "acct-2") = MkPy [] (Return false).
Proof.
  split; [reflexivity|]. split; [discriminate|].
  apply (database_path_anonymous example_anonymous "coupon-management"
           example_assignments (Some "acct-2")).
  reflexivity.
Defined.

(** C10.  A user object without an [is_anonymous] attribute is treated as
    authenticated: the evaluator queries the assignments and decides on them.
    The evaluator returns without a query only for a user whose
    [is_anonymous] attribute is present and true. *)
Theorem database_path_missing_is_anonymous (user : User) (role_name : string)
    (role_assignment_class : RoleAssignmentClass) (context : option string) :
  (is_anonymous user = None →
     user_has_access_via_database user role_name role_assignment_class context
     = MkPy [QueryFilter (pk user) role_name]
         (Return (assignments_grant
                    (matching_assignments role_assignment_class user role_name) context)))
  ∧ (trace (user_has_access_via_database user role_name role_assignment_class context) = [] →
     is_anonymous user = Some true).
Proof.
  split.
  - intros Hnone. apply database_path_authenticated.
    unfold getattr_is_anonymous. by rewrite Hnone.
  - intros Htrace. destruct (is_anonymous user) as [[]|] eqn:Hanon; [done| |].
    + rewrite database_path_authenticated in Htrace; [done|].
      unfold getattr_is_anonymous. by rewrite Hanon.
    + rewrite database_path_authenticated in Htrace; [done|].
      unfold getattr_is_anonymous. by rewrite Hanon.
Qed.

Lemma database_path_missing_is_anonymous_witness :
  is_anonymous example_plain_user = None
  ∧ user_has_access_via_database example_plain_user "coupon-management"
      example_assignments (Some "acct-2")
    = MkPy [QueryFilter 7 "coupon-management"] (Return true)
  ∧ trace (user_has_access_via_database example_anonymous "coupon-management"
             example_assignments (Some "acct-2")) = []
  ∧ is_anonymous example_anonymous = Some true.
Proof.
  split; [reflexivity|]. split; [|split].
  - destruct (database_path_missing_is_anonymous example_plain_user "coupon-management"
                example_assignments (Some "acct-2")) as [Hquery _].
    rewrite (Hquery eq_refl). vm_compute. reflexivity.
  - reflexivity.
  - destruct (database_path_missing_is_anonymous example_anonymous "coupon-management"
                example_assignments (Some "acct-2")) as [_ Honly].
    apply Honly. reflexivity.
Defined.


(** ** The Claim Builder *)

Lemma append_role_auth_claim_entry (role_auth_claim : list string) (role_string item : string) :
  append_role_auth_claim role_auth_claim role_string (Some item)
  = role_auth_claim ++ [claim_entry role_string item].
Proof.
  unfold append_role_auth_claim, claim_entry; simpl.
  by destruct (str_truthy item).
Qed.

Lemma append_items_entries (role_string : string) (items role_auth_claim : list string) :
  foldl (λ role_auth_claim item,
           append_role_auth_claim role_auth_claim role_string (Some item))
        role_auth_claim items
  = role_auth_claim ++ (claim_entry role_string <$> items).
Proof.
  revert role_auth_claim.
  induction items as [|item items IH]; intros role_auth_claim; simpl.
  - by rewrite app_nil_r.
  - by rewrite IH, append_role_auth_claim_entry, <- app_assoc.
Qed.

(** The loop body only appends. *)
Lemma role_auth_claim_step_app (role_auth_claim : list string) (p : string * source_context) :
  role_auth_claim_step role_auth_claim p = role_auth_claim ++ role_auth_claim_step [] p.
Proof.
  destruct p as [role_string [|s|items|items]]; unfold role_auth_claim_step; simpl.
  - done.
  - unfold append_role_auth_claim; simpl. by destruct (str_truthy s).
  - destruct items as [|item items]; [done|].
    by rewrite !append_items_entries.
  - by rewrite !append_items_entries.
Qed.

Lemma role_auth_claim_loop_app (pairs : list (string * source_context))
    (role_auth_claim : list string) :
  foldl role_auth_claim_step role_auth_claim pairs
  = role_auth_claim ++ (pairs ≫= role_auth_claim_step []).
Proof.
  revert role_auth_claim.
  induction pairs as [|p pairs IH]; intros role_auth_claim; simpl.
  - by rewrite app_nil_r.
  - by rewrite IH, (role_auth_claim_step_app role_auth_claim), <- app_assoc.
Qed.

(** *** Resolution of one locator *)

(** The body of the [try]: one import, then what the first attempt gives. *)
Lemma try_body_first_attempt (rt : Runtime) (m f : string) :
  (import_module rt m ≫= λ module, getattr module f)
  = MkPy [ImportModule m] (first_attempt rt m f).
Proof.
  unfold import_module, first_attempt, run_outcome, getattr.
  destruct (import_outcome rt m) as [module|e]; py_run; [|done].
  by destruct (module !! f).
Qed.

Lemma resolve_no_dot (rt : Runtime) (loc : string) :
  rsplit1 "." loc = None → resolve_role_func rt loc = MkPy [] (Raise ValueError).
Proof.
  intros Hsplit. unfold resolve_role_func, unpack_rsplit. by rewrite Hsplit.
Qed.

Lemma resolve_split (rt : Runtime) (loc m f : string) :
  rsplit1 "." loc = Some (m, f) →
  resolve_role_func rt loc
  = try_except (MkPy [ImportModule m] (first_attempt rt m f))
      is_import_or_attribute_error
      (get_model rt m f ≫= λ module, mret (get_assignments module)).
Proof.
  intros Hsplit. unfold resolve_role_func, unpack_rsplit. rewrite Hsplit.
  rewrite Py_bind_ret_l. simpl fst. simpl snd. by rewrite try_body_first_attempt.
Qed.

Lemma resolve_callable (rt : Runtime) (loc m f : string)
    (g : User → outcome (list (string * source_context))) :
  rsplit1 "." loc = Some (m, f) →
  first_attempt rt m f = Return g →
  resolve_role_func rt loc = MkPy [ImportModule m] (Return g).
Proof.
  intros Hsplit Hg. rewrite (resolve_split rt loc m f Hsplit), Hg. done.
Qed.

Lemma resolve_model (rt : Runtime) (loc m f : string) (e : exn)
    (model : RoleAssignmentClass) :
  rsplit1 "." loc = Some (m, f) →
  first_attempt rt m f = Raise e →
  e = ImportError ∨ e = AttributeError →
  app_models rt !! (m, f) = Some model →
  resolve_role_func rt loc
  = MkPy [ImportModule m; GetModel m f] (Return (get_assignments model)).
Proof.
  intros Hsplit Hfail He Hmodel. rewrite (resolve_split rt loc m f Hsplit), Hfail.
  unfold get_model. rewrite Hmodel. by destruct He as [-> | ->].
Qed.

Lemma resolve_neither (rt : Runtime) (loc m f : string) (e : exn) :
  rsplit1 "." loc = Some (m, f) →
  first_attempt rt m f = Raise e →
  e = ImportError ∨ e = AttributeError →
  app_models rt !! (m, f) = None →
  resolve_role_func rt loc = MkPy [ImportModule m; GetModel m f] (Raise LookupError).
Proof.
  intros Hsplit Hfail He Hmodel. rewrite (resolve_split rt loc m f Hsplit), Hfail.
  unfold get_model. rewrite Hmodel. by destruct He as [-> | ->].
Qed.

Lemma resolve_other_exception (rt : Runtime) (loc m f : string) (e : exn) :
  rsplit1 "." loc = Some (m, f) →
  first_attempt rt m f = Raise e →
  e ≠ ImportError → e ≠ AttributeError →
  resolve_role_func rt loc = MkPy [ImportModule m] (Raise e).
Proof.
  intros Hsplit Hfail Himport Hattr. rewrite (resolve_split rt loc m f Hsplit), Hfail.
  unfold try_except. simpl. by destruct e.
Qed.

(** *** The loop over the locators *)

Lemma role_classes_loop_app (rt : Runtime) (user : User) (pre rest : list string)
    (role_auth_claim : list string) :
  role_classes_loop rt user (pre ++ rest) role_auth_claim
  = role_classes_loop rt user pre role_auth_claim ≫= role_classes_loop rt user rest.
Proof.
  revert role_auth_claim.
  induction pre as [|loc pre IH]; intros role_auth_claim.
  - symmetry. apply (Py_bind_ret_l role_auth_claim).
  - cbn [role_classes_loop app].
    rewrite Py_bind_assoc. apply Py_bind_ext. intros g.
    rewrite Py_bind_assoc. apply Py_bind_ext. intros claim. apply IH.
Qed.

(** The loop over the locators is the loop body folded over everything the
    resolved sources yield. *)
Lemma role_classes_loop_sources (rt : Runtime) (user : User) (locs : list string)
    (role_auth_claim : list string) :
  role_classes_loop rt user locs role_auth_claim
  = sources_yield rt user locs ≫= λ pairs, mret (foldl role_auth_claim_step role_auth_claim pairs).
Proof.
  revert role_auth_claim.
  induction locs as [|loc locs IH]; intros role_auth_claim.
  - symmetry. apply (Py_bind_ret_l []).
  - cbn [role_classes_loop sources_yield].
    rewrite Py_bind_assoc. apply Py_bind_ext. intros g.
    unfold role_func_loop. rewrite !Py_bind_assoc. apply Py_bind_ext. intros yielded.
    rewrite Py_bind_ret_l, IH, Py_bind_assoc. apply Py_bind_ext. intros further.
    by rewrite Py_bind_ret_l, foldl_app.
Qed.

Lemma create_role_auth_claim_of_sources (settings : Settings) (rt : Runtime) (user : User)
    (t : list event) (pairs : list (string * source_context)) :
  sources_yield rt user (SYSTEM_WIDE_ROLE_CLASSES settings) = MkPy t (Return pairs) →
  create_role_auth_claim_for_user settings rt user
  = MkPy t (Return (foldl role_auth_claim_step [] pairs)).
Proof.
  intros Hyield. unfold create_role_auth_claim_for_user.
  rewrite role_classes_loop_sources, Hyield, Py_bind_return. simpl.
  by rewrite app_nil_r.
Qed.

(** C4, as amended.  The builder's output is its loop body folded, in yield
    order, over the pairs the sources yield; and for a pair the loop body
    appends: the bare role string when the context is empty or null (falsy:
    [None], the empty string, an empty collection); the one string
    [role:context] when the context is a non-empty string; and, when the
    context is any other non-string iterable (a non-empty collection, or an
    iterator, whatever it yields), one entry per item in order, which is
    [role:item] for a non-empty item and the bare role string for an empty
    item. *)
Theorem role_auth_claim_entries (settings : Settings) (rt : Runtime) (user : User)
    (t : list event) (pairs : list (string * source_context)) :
  sources_yield rt user (SYSTEM_WIDE_ROLE_CLASSES settings) = MkPy t (Return pairs) →
  create_role_auth_claim_for_user settings rt user
    = MkPy t (Return (foldl role_auth_claim_step [] pairs))
  ∧ ∀ (role_auth_claim : list string) (role_string : string),
      (∀ context, source_context_truthy context = false →
         role_auth_claim_step role_auth_claim (role_string, context)
         = role_auth_claim ++ [role_string])
      ∧ (∀ s, s ≠ "" →
           role_auth_claim_step role_auth_claim (role_string, Scalar s)
           = role_auth_claim ++ [role_string +:+ ":" +:+ s])
      ∧ (∀ items, items ≠ [] →
           role_auth_claim_step role_auth_claim (role_string, Items items)
           = role_auth_claim ++ (claim_entry role_string <$> items))
      ∧ (∀ items,
           role_auth_claim_step role_auth_claim (role_string, Iterator items)
           = role_auth_claim ++ (claim_entry role_string <$> items))
      ∧ (∀ item, item ≠ "" → claim_entry role_string item = role_string +:+ ":" +:+ item)
      ∧ claim_entry role_string "" = role_string.
Proof.
  intros Hyield. split; [by apply create_role_auth_claim_of_sources|].
  intros role_auth_claim role_string. repeat split.
  - intros context Hfalsy. unfold role_auth_claim_step. by rewrite Hfalsy.
  - intros s Hs%str_truthy_true. unfold role_auth_claim_step; simpl. rewrite Hs.
    unfold append_role_auth_claim; simpl. by rewrite Hs.
  - intros [|item items] Hitems; [done|].
    unfold role_auth_claim_step. cbn [source_context_truthy].
    apply append_items_entries.
  - intros items. unfold role_auth_claim_step. cbn [source_context_truthy].
    apply append_items_entries.
  - intros item Hitem%str_truthy_true. unfold claim_entry. by rewrite Hitem.
Qed.

Lemma role_auth_claim_entries_witness :
  let pairs := [("coupon-manager", Items ["acct-1"; "acct-2"]);
                ("enterprise_admin", Iterator []);
                ("enterprise_learner", Items [])] in
  let rt := example_runtime pairs in
  sources_yield rt example_user (SYSTEM_WIDE_ROLE_CLASSES example_settings)
    = MkPy [ImportModule "roles.sources"] (Return pairs)
  ∧ create_role_auth_claim_for_user example_settings rt example_user
    = MkPy [ImportModule "roles.sources"]
           (Return ["coupon-manager:acct-1"; "coupon-manager:acct-2"; "enterprise_learner"]).
Proof.
  intros pairs rt.
  assert (Hyield : sources_yield rt example_user (SYSTEM_WIDE_ROLE_CLASSES example_settings)
                   = MkPy [ImportModule "roles.sources"] (Return pairs))
    by (vm_compute; reflexivity).
  split; [exact Hyield|].
  destruct (role_auth_claim_entries example_settings rt example_user _ _ Hyield)
    as [Hbuilt _].
  rewrite Hbuilt. vm_compute. reflexivity.
Defined.

(** C4 as stated does not hold for an empty item of an iterable: the builder
    appends the bare role string for it, not the role string and a colon. *)
Lemma empty_item_gets_bare_role :
  result (create_role_auth_claim_for_user example_settings
            (example_runtime [("coupon-manager", Items [""; "acct-2"])]) example_user)
    = Return ["coupon-manager"; "coupon-manager:acct-2"]
  ∧ (λ item, "coupon-manager" +:+ ":" +:+ item) <$> [""; "acct-2"]
    = ["coupon-manager:"; "coupon-manager:acct-2"]
  ∧ ["coupon-manager"; "coupon-manager:acct-2"]
    ≠ ["coupon-manager:"; "coupon-manager:acct-2"].
Proof.
  split; [by vm_compute|]. split; [by vm_compute|]. discriminate.
Qed.

(** C8.  For the locator [loc] in the configured list, with the locators
    before it processed first, and [m], [f] the two names it is split into:
    the builder first imports [m] and looks [f] up in it.  When that gives an
    object, that object is the source and the app registry is not consulted.
    Only when it raises an [ImportError] or an [AttributeError] is the model
    [(m, f)] looked up: when the registry has it, its [get_assignments] is
    the source; when it has not, the [LookupError] of the registry leaves the
    builder.  Any other exception of the first attempt leaves the builder as
    it is, the registry not consulted; and a locator without a dot cannot be
    split, and the [ValueError] leaves the builder before any import. *)
Theorem role_source_resolution_order (settings : Settings) (rt : Runtime) (user : User)
    (pre post : list string) (loc : string) :
  SYSTEM_WIDE_ROLE_CLASSES settings = pre ++ loc :: post →
  let before := role_classes_loop rt user pre [] in
  (∀ m f g, rsplit1 "." loc = Some (m, f) → first_attempt rt m f = Return g →
     create_role_auth_claim_for_user settings rt user
     = (role_auth_claim ← before;
        _ ← emit (ImportModule m);
        role_auth_claim ← role_func_loop user g role_auth_claim;
        role_classes_loop rt user post role_auth_claim))
  ∧ (∀ m f e model, rsplit1 "." loc = Some (m, f) → first_attempt rt m f = Raise e →
       e = ImportError ∨ e = AttributeError →
       app_models rt !! (m, f) = Some model →
       create_role_auth_claim_for_user settings rt user
       = (role_auth_claim ← before;
          _ ← emit (ImportModule m);
          _ ← emit (GetModel m f);
          role_auth_claim ← role_func_loop user (get_assignments model) role_auth_claim;
          role_classes_loop rt user post role_auth_claim))
  ∧ (∀ m f e, rsplit1 "." loc = Some (m, f) → first_attempt rt m f = Raise e →
       e = ImportError ∨ e = AttributeError →
       app_models rt !! (m, f) = None →
       create_role_auth_claim_for_user settings rt user
       = (_ ← before; _ ← emit (ImportModule m); _ ← emit (GetModel m f); raise LookupError))
  ∧ (∀ m f e, rsplit1 "." loc = Some (m, f) → first_attempt rt m f = Raise e →
       e ≠ ImportError → e ≠ AttributeError →
       create_role_auth_claim_for_user settings rt user
       = (_ ← before; _ ← emit (ImportModule m); raise e))
  ∧ (rsplit1 "." loc = None →
       create_role_auth_claim_for_user settings rt user = (_ ← before; raise ValueError)).
Proof.
  intros Hlocs before. subst before. unfold create_role_auth_claim_for_user.
  rewrite Hlocs, role_classes_loop_app.
  repeat split.
  - intros m f g Hsplit Hg. apply Py_bind_ext. intros role_auth_claim.
    cbn [role_classes_loop]. by rewrite (resolve_callable rt loc m f g).
  - intros m f e model Hsplit Hfail He Hmodel. apply Py_bind_ext. intros role_auth_claim.
    cbn [role_classes_loop]. by rewrite (resolve_model rt loc m f e model).
  - intros m f e Hsplit Hfail He Hmodel. apply Py_bind_ext. intros role_auth_claim.
    cbn [role_classes_loop]. by rewrite (resolve_neither rt loc m f e).
  - intros m f e Hsplit Hfail Himport Hattr. apply Py_bind_ext. intros role_auth_claim.
    cbn [role_classes_loop]. by rewrite (resolve_other_exception rt loc m f e).
  - intros Hsplit. apply Py_bind_ext. intros role_auth_claim.
    cbn [role_classes_loop]. by rewrite (resolve_no_dot rt loc).
Qed.

Lemma role_source_resolution_order_witness :
  (* a callable and a model of the same name: the callable is used *)
  create_role_auth_claim_for_user (example_locator_settings ["roles.Assignment"])
    example_both_runtime example_user
  = MkPy [ImportModule "roles"] (Return ["coupon-manager"])
  (* no such attribute in the module: the model is used *)
  ∧ create_role_auth_claim_for_user (example_locator_settings ["roles.Assignment"])
      example_model_runtime example_user
    = MkPy [ImportModule "roles"; GetModel "roles" "Assignment"]
           (Return ["coupon-manager:acct-1"; "coupon-manager:acct-2"])
  (* no such module and no such model: the lookup error propagates *)
  ∧ create_role_auth_claim_for_user
      (example_locator_settings ["roles.Assignment"; "missing.Thing"])
      example_model_runtime example_user
    = MkPy [ImportModule "roles"; GetModel "roles" "Assignment";
            ImportModule "missing"; GetModel "missing" "Thing"]
           (Raise LookupError)
  (* an empty module name: the error of the import propagates, no fallback *)
  ∧ create_role_auth_claim_for_user (example_locator_settings [".Assignment"])
      example_model_runtime example_user
    = MkPy [ImportModule EmptyString] (Raise ValueError)
  (* a relative module name: the error of the import propagates, no fallback *)
  ∧ create_role_auth_claim_for_user (example_locator_settings ["..Assignment"])
      example_model_runtime example_user
    = MkPy [ImportModule "."] (Raise TypeError)
  (* an attribute that is no role source is used all the same *)
  ∧ create_role_auth_claim_for_user (example_locator_settings ["roles.models.Assignment"])
      example_model_runtime example_user
    = MkPy [ImportModule "roles.models"] (Raise TypeError)
  (* no dot: the unpacking error propagates *)
  ∧ create_role_auth_claim_for_user (example_locator_settings ["nodots"])
      example_model_runtime example_user
    = MkPy [] (Raise ValueError).
Proof.
  split; [|split; [|split; [|split; [|split; [|split]]]]].
  - destruct (role_source_resolution_order (example_locator_settings ["roles.Assignment"])
                example_both_runtime example_user [] [] "roles.Assignment" eq_refl)
      as (Hcallable & _).
    rewrite (Hcallable "roles" "Assignment" (λ _, Return [("coupon-manager", NoContext)]))
      by reflexivity.
    vm_compute. reflexivity.
  - destruct (role_source_resolution_order (example_locator_settings ["roles.Assignment"])
                example_model_runtime example_user [] [] "roles.Assignment" eq_refl)
      as (_ & Hmodel & _).
    rewrite (Hmodel "roles" "Assignment" AttributeError example_assignments);
      [|reflexivity|reflexivity|right; reflexivity|reflexivity].
    vm_compute. reflexivity.
  - destruct (role_source_resolution_order
                (example_locator_settings ["roles.Assignment"; "missing.Thing"])
                example_model_runtime example_user ["roles.Assignment"] [] "missing.Thing"
                eq_refl)
      as (_ & _ & Hneither & _).
    rewrite (Hneither "missing" "Thing" ImportError);
      [|reflexivity|reflexivity|left; reflexivity|reflexivity].
    vm_compute. reflexivity.
  - destruct (role_source_resolution_order (example_locator_settings [".Assignment"])
                example_model_runtime example_user [] [] ".Assignment" eq_refl)
      as (_ & _ & _ & Hother & _).
    rewrite (Hother EmptyString "Assignment" ValueError);
      [|reflexivity|reflexivity|discriminate|discriminate].
    vm_compute. reflexivity.
  - destruct (role_source_resolution_order (example_locator_settings ["..Assignment"])
                example_model_runtime example_user [] [] "..Assignment" eq_refl)
      as (_ & _ & _ & Hother & _).
    rewrite (Hother "." "Assignment" TypeError);
      [|reflexivity|reflexivity|discriminate|discriminate].
    vm_compute. reflexivity.
  - destruct (role_source_resolution_order
                (example_locator_settings ["roles.models.Assignment"])
                example_model_runtime example_user [] [] "roles.models.Assignment" eq_refl)
      as (Hcallable & _).
    rewrite (Hcallable "roles.models" "Assignment" (λ _, Raise TypeError))
      by reflexivity.
    vm_compute. reflexivity.
  - destruct (role_source_resolution_order (example_locator_settings ["nodots"])
                example_model_runtime example_user [] [] "nodots" eq_refl)
      as (_ & _ & _ & _ & Hnodot).
    rewrite Hnodot by reflexivity.
    vm_compute. reflexivity.
Defined.

(** ** Round trip: build, then extract *)

Lemma reference_split_claim_entry (role_string c : string) :
  occurs ":" role_string = false →
  reference_split (claim_entry role_string c) = (role_string, c).
Proof.
  intros Hcolon. unfold reference_split, claim_entry, format_contextual_role.
  destruct (str_truthy c) eqn:Hc.
  - change (":" +:+ c) with (String ":" c).
    by rewrite before_first_app, after_first_app.
  - apply str_truthy_false in Hc as ->.
    by rewrite before_first_absent, after_first_absent.
Qed.



(** What the loop body appends for a pair: one entry per advertised context. *)
Lemma role_auth_claim_step_advertised (role_string : string) (context : source_context) :
  role_auth_claim_step [] (role_string, context)
  = claim_entry role_string <$> advertised_contexts context.
Proof.
  destruct context as [|s|[|item items]|items]; unfold role_auth_claim_step; simpl.
  - done.
  - unfold append_role_auth_claim, claim_entry; simpl. by destruct (str_truthy s).
  - done.
  - rewrite append_items_entries. by rewrite append_role_auth_claim_entry.
  - by rewrite append_items_entries.
Qed.




(** * Further properties of the code *)

(** ** The extractor, key by key *)

Lemma lookup_extend_app (o : option (list string)) (cs1 cs2 : list string) :
  lookup_extend (lookup_extend o cs1) cs2 = lookup_extend o (cs1 ++ cs2).
Proof.
  destruct cs1 as [|c1 cs1]; [done|].
  destruct cs2 as [|c2 cs2]; simpl.
  - by rewrite app_nil_r.
  - by rewrite <- app_assoc.
Qed.

Lemma defaultdict_append_lookup (out : gmap string (list string)) (role c F : string) :
  defaultdict_append out role c !! F
  = lookup_extend (out !! F) (if decide (role = F) then [c] else []).
Proof.
  unfold defaultdict_append. rewrite lookup_insert.
  destruct (decide (role = F)) as [->|]; simpl; done.
Qed.

Lemma mapped_roles_loop_lookup (mapped : list string) (c F : string)
    (out : gmap string (list string)) :
  foldl (λ feature_roles role, defaultdict_append feature_roles role c) out mapped !! F
  = lookup_extend (out !! F) ((λ _, c) <$> filter (λ role, role = F) mapped).
Proof.
  revert out. induction mapped as [|role mapped IH]; intros out; simpl; [done|].
  rewrite IH, defaultdict_append_lookup, lookup_extend_app. f_equal.
  rewrite filter_cons. by destruct (decide (role = F)).
Qed.

Lemma feature_roles_step_lookup (settings : Settings) (out : gmap string (list string))
    (role_data F : string) :
  feature_roles_step settings out role_data !! F
  = lookup_extend (out !! F) (entry_contexts_for settings F role_data).
Proof.
  unfold feature_roles_step, entry_contexts_for, entry_role, entry_context.
  destruct (partition ":" role_data) as [[role_in_jwt found] context_in_jwt]; simpl.
  apply mapped_roles_loop_lookup.
Qed.

Lemma feature_roles_loop_lookup (settings : Settings) (claim : list string) (F : string)
    (out : gmap string (list string)) :
  foldl (feature_roles_step settings) out claim !! F
  = lookup_extend (out !! F) (claim ≫= entry_contexts_for settings F).
Proof.
  revert out. induction claim as [|role_data claim IH]; intros out; simpl; [done|].
  by rewrite IH, feature_roles_step_lookup, lookup_extend_app.
Qed.

(** X1.  The list the extractor's loop builds for a feature role is the
    contexts of the entries whose role name maps to it, in entry order, an
    entry counting once for each time the mapping lists the feature role; the
    feature role is a key exactly when that list is not empty. *)
Theorem feature_roles_of_claim_lookup (settings : Settings) (claim : list string)
    (F : string) :
  feature_roles_of_claim settings claim !! F
  = match claim ≫= entry_contexts_for settings F with
    | [] => None
    | c :: cs => Some (c :: cs)
    end.
Proof.
  unfold feature_roles_of_claim.
  rewrite feature_roles_loop_lookup, lookup_empty.
  by destruct (claim ≫= entry_contexts_for settings F).
Qed.

Lemma elem_of_entry_contexts (settings : Settings) (claim : list string) (F c : string) :
  c ∈ claim ≫= entry_contexts_for settings F
  ↔ ∃ e, e ∈ claim
         ∧ F ∈ default [] (SYSTEM_TO_FEATURE_ROLE_MAPPING settings !! entry_role e)
         ∧ entry_context e = c.
Proof.
  rewrite list_elem_of_bind. split.
  - intros (e & Hc & He). exists e. split; [done|].
    unfold entry_contexts_for in Hc.
    apply list_elem_of_fmap in Hc as (role & -> & Hrole).
    apply list_elem_of_filter in Hrole as [-> Hrole]. done.
  - intros (e & He & HF & <-). exists e. split; [|done].
    unfold entry_contexts_for. apply list_elem_of_fmap. exists F. split; [done|].
    by apply list_elem_of_filter.
Qed.

(** X2.  A feature role the extractor returns has a list that is not empty,
    and a context is in the list exactly when it is the context of an entry
    of the roles claim whose role name maps to the feature role: no key
    without a context, no context from an unmapped entry. *)
Theorem extracted_contexts_come_from_entries (settings : Settings)
    (d m : gmap string (list string)) (F : string) (contexts : list string) :
  result (feature_roles_from_jwt settings (Some d)) = Return m →
  m !! F = Some contexts →
  contexts ≠ []
  ∧ ∀ c, c ∈ contexts
         ↔ ∃ e, e ∈ default [] (d !! "roles")
                ∧ F ∈ default [] (SYSTEM_TO_FEATURE_ROLE_MAPPING settings !! entry_role e)
                ∧ entry_context e = c.
Proof.
  rewrite feature_roles_from_jwt_Some. simpl. intros [= <-].
  unfold feature_roles_of_claim. rewrite feature_roles_loop_lookup, lookup_empty.
  intros Hlookup.
  destruct (default [] (d !! "roles") ≫= entry_contexts_for settings F)
    as [|c0 cs] eqn:Hcs; [done|].
  injection Hlookup as <-. split; [done|].
  intros c. rewrite <- Hcs. apply elem_of_entry_contexts.
Qed.

Lemma extracted_contexts_come_from_entries_witness :
  let d := example_jwt ["enterprise_admin:acct-42"; "auditor:acct-7"; "coupon-manager"] in
  result (feature_roles_from_jwt example_settings (Some d))
    = Return {[ "coupon-management" := ["acct-42"; EmptyString];
                "data_api_access" := ["acct-42"] ]}
  ∧ ["acct-42"; EmptyString] ≠ []
  ∧ (∃ e, e ∈ default [] (d !! "roles")
          ∧ "coupon-management"
              ∈ default [] (SYSTEM_TO_FEATURE_ROLE_MAPPING example_settings !! entry_role e)
          ∧ entry_context e = "acct-42").
Proof.
  intros d.
  assert (Hm : result (feature_roles_from_jwt example_settings (Some d))
               = Return {[ "coupon-management" := ["acct-42"; EmptyString];
                           "data_api_access" := ["acct-42"] ]})
    by (vm_compute; reflexivity).
  destruct (extracted_contexts_come_from_entries example_settings d _
              "coupon-management" ["acct-42"; EmptyString] Hm)
    as [Hne Hiff]; [vm_compute; reflexivity|].
  split; [exact Hm|]. split; [exact Hne|].
  apply Hiff. apply list_elem_of_here.
Defined.

(** ** The claims path, entry by entry *)

(** The claims-path evaluator always returns. *)
Lemma claims_path_returns (settings : Settings) (T : option (gmap string (list string)))
    (R : string) (c : option string) :
  ∃ b, result (request_user_has_implicit_access_via_jwt settings T R c) = Return b.
Proof.
  destruct T as [d|]; [|by exists false].
  destruct (decide (d = ∅)) as [->|Hd].
  - exists false. unfold request_user_has_implicit_access_via_jwt, jwt_truthy.
    by rewrite bool_decide_eq_true_2.
  - rewrite claims_path_non_empty by done. by eexists.
Qed.

Lemma claims_path_granted_entry (settings : Settings)
    (d : gmap string (list string)) (R : string) (c : option string) :
  d ≠ ∅ →
  result (request_user_has_implicit_access_via_jwt settings (Some d) R c) = Return true
  ↔ ∃ e, e ∈ default [] (d !! "roles")
         ∧ R ∈ default [] (SYSTEM_TO_FEATURE_ROLE_MAPPING settings !! entry_role e)
         ∧ (context_truthy c = false
            ∨ c = Some (entry_context e)
            ∨ entry_context e = ALL_ACCESS_CONTEXT).
Proof.
  intros Hd. rewrite claims_path_non_empty by done. simpl.
  unfold feature_roles_of_claim. rewrite feature_roles_loop_lookup, lookup_empty.
  destruct (default [] (d !! "roles") ≫= entry_contexts_for settings R)
    as [|c0 cs] eqn:Hcs; simpl.
  - split; [done|]. intros (e & He & HR & _).
    assert (Hin : entry_context e ∈ default [] (d !! "roles") ≫= entry_contexts_for settings R)
      by (apply elem_of_entry_contexts; eauto).
    rewrite Hcs in Hin. by apply not_elem_of_nil in Hin.
  - rewrite <- Hcs.
    destruct (context_truthy c) eqn:Htruthy; simpl.
    + destruct c as [x|]; [|done]. simpl. split.
      * intros [= Hor]. apply orb_true_iff in Hor as [Hx|Hall].
        -- apply bool_decide_eq_true_1, elem_of_entry_contexts in Hx as (e & He & HR & Hctx).
           exists e. repeat split; [done..|]. right. left. by rewrite Hctx.
        -- apply bool_decide_eq_true_1, elem_of_entry_contexts in Hall as (e & He & HR & Hctx).
           exists e. repeat split; [done..|]. by right; right.
      * intros (e & He & HR & [Hfalse|[[= ->]|Hall]]); [done| |]; f_equal;
          apply orb_true_iff.
        -- left. apply bool_decide_eq_true_2, elem_of_entry_contexts. eauto.
        -- right. apply bool_decide_eq_true_2, elem_of_entry_contexts. eauto.
    + split; [|done]. intros _.
      assert (Hin : c0 ∈ default [] (d !! "roles") ≫= entry_contexts_for settings R)
        by (rewrite Hcs; apply list_elem_of_here).
      apply elem_of_entry_contexts in Hin as (e & He & HR & _).
      exists e. repeat split; [done..|]. by left.
Qed.

(** X4.  On a non-empty token the claims-path evaluation is granted exactly
    when some entry of the roles claim has a role name that maps to the
    requested feature role and, if a (non-empty) context is requested, has
    that context or the wildcard as its context. *)
Theorem claims_path_granted_iff_entry (settings : Settings)
    (d : gmap string (list string)) (R : string) (c : option string) :
  d ≠ ∅ →
  result (request_user_has_implicit_access_via_jwt settings (Some d) R c) = Return true
  ↔ ∃ e, e ∈ default [] (d !! "roles")
         ∧ R ∈ default [] (SYSTEM_TO_FEATURE_ROLE_MAPPING settings !! entry_role e)
         ∧ (context_truthy c = false
            ∨ c = Some (entry_context e)
            ∨ entry_context e = ALL_ACCESS_CONTEXT).
Proof. apply claims_path_granted_entry. Qed.

Lemma claims_path_granted_iff_entry_witness :
  let d := example_jwt ["enterprise_admin:course-v1:edX+Demo"] in
  d ≠ ∅
  ∧ result (request_user_has_implicit_access_via_jwt example_settings (Some d)
              "data_api_access" (Some "course-v1:edX+Demo")) = Return true.
Proof.
  intros d.
  assert (Hd : d ≠ ∅) by apply insert_non_empty.
  split; [exact Hd|].
  apply (claims_path_granted_iff_entry example_settings d "data_api_access"
           (Some "course-v1:edX+Demo") Hd).
  exists "enterprise_admin:course-v1:edX+Demo".
  split; [vm_compute; apply list_elem_of_here|].
  split; [vm_compute; apply list_elem_of_further, list_elem_of_here|].
  right. left. reflexivity.
Defined.

(** A token without a roles claim entry has no entry to grant anything. *)
Lemma claims_path_granted_has_entry (settings : Settings)
    (d : gmap string (list string)) (R : string) (c : option string) :
  result (request_user_has_implicit_access_via_jwt settings (Some d) R c) = Return true →
  d ≠ ∅.
Proof.
  intros Hgranted ->.
  unfold request_user_has_implicit_access_via_jwt, jwt_truthy in Hgranted.
  by rewrite bool_decide_eq_true_2 in Hgranted.
Qed.

Lemma claims_path_subset (settings : Settings) (d1 d2 : gmap string (list string))
    (R : string) (c : option string) :
  (∀ e, e ∈ default [] (d1 !! "roles") → e ∈ default [] (d2 !! "roles")) →
  result (request_user_has_implicit_access_via_jwt settings (Some d1) R c) = Return true →
  result (request_user_has_implicit_access_via_jwt settings (Some d2) R c) = Return true.
Proof.
  intros Hsub Hgranted.
  pose proof (claims_path_granted_has_entry _ _ _ _ Hgranted) as Hd1.
  apply claims_path_granted_entry in Hgranted as (e & He & HR & Hc); [|done].
  apply Hsub in He.
  apply claims_path_granted_entry; [|by eauto].
  intros ->. rewrite lookup_empty in He. by apply not_elem_of_nil in He.
Qed.

(** X5.  Adding entries to the roles claim never revokes access: when every
    entry of one token's roles claim is also in another's, what the first
    token is granted the second is granted too. *)
Theorem claims_path_monotone (settings : Settings) (d1 d2 : gmap string (list string))
    (R : string) (c : option string) :
  (∀ e, e ∈ default [] (d1 !! "roles") → e ∈ default [] (d2 !! "roles")) →
  result (request_user_has_implicit_access_via_jwt settings (Some d1) R c) = Return true →
  result (request_user_has_implicit_access_via_jwt settings (Some d2) R c) = Return true.
Proof. apply claims_path_subset. Qed.

Lemma claims_path_monotone_witness :
  let d1 := example_jwt ["coupon-manager:acct-1"] in
  let d2 := example_jwt ["enterprise_learner"; "coupon-manager:acct-1"] in
  (∀ e, e ∈ default [] (d1 !! "roles") → e ∈ default [] (d2 !! "roles"))
  ∧ result (request_user_has_implicit_access_via_jwt example_settings (Some d1)
              "coupon-management" (Some "acct-1")) = Return true
  ∧ result (request_user_has_implicit_access_via_jwt example_settings (Some d2)
              "coupon-management" (Some "acct-1")) = Return true.
Proof.
  intros d1 d2.
  assert (Hsub : ∀ e, e ∈ default [] (d1 !! "roles") → e ∈ default [] (d2 !! "roles")).
  { intros e He. vm_compute in He. apply list_elem_of_singleton in He as ->.
    vm_compute. apply list_elem_of_further, list_elem_of_here. }
  assert (Hgranted : result (request_user_has_implicit_access_via_jwt example_settings
                               (Some d1) "coupon-management" (Some "acct-1")) = Return true)
    by (vm_compute; reflexivity).
  split; [exact Hsub|]. split; [exact Hgranted|].
  exact (claims_path_monotone example_settings d1 d2 "coupon-management" (Some "acct-1")
           Hsub Hgranted).
Defined.

(** X6.  The decision depends on the roles claim as a set only: two tokens
    whose roles claims have the same entries, in whatever order and however
    often, get the same decision; the other keys of the token play no part. *)
Theorem claims_path_order_irrelevant (settings : Settings)
    (d1 d2 : gmap string (list string)) (R : string) (c : option string) :
  (∀ e, e ∈ default [] (d1 !! "roles") ↔ e ∈ default [] (d2 !! "roles")) →
  result (request_user_has_implicit_access_via_jwt settings (Some d1) R c)
  = result (request_user_has_implicit_access_via_jwt settings (Some d2) R c).
Proof.
  intros Hsame.
  destruct (claims_path_returns settings (Some d1) R c) as [b1 H1].
  destruct (claims_path_returns settings (Some d2) R c) as [b2 H2].
  rewrite H1, H2. f_equal.
  destruct b1, b2; try done.
  - assert (H2' : result (request_user_has_implicit_access_via_jwt settings (Some d2) R c)
                  = Return true)
      by (apply (claims_path_subset settings d1 d2); [intros e; apply Hsame|done]).
    congruence.
  - assert (H1' : result (request_user_has_implicit_access_via_jwt settings (Some d1) R c)
                  = Return true)
      by (apply (claims_path_subset settings d2 d1); [intros e; apply Hsame|done]).
    congruence.
Qed.

Lemma claims_path_order_irrelevant_witness :
  let d1 := example_jwt ["coupon-manager:acct-1"; "enterprise_admin:acct-2"] in
  let d2 : gmap string (list string) :=
    {[ "roles" := ["enterprise_admin:acct-2"; "coupon-manager:acct-1";
                   "enterprise_admin:acct-2"];
       "preferred_username" := ["edx"] ]} in
  (∀ e, e ∈ default [] (d1 !! "roles") ↔ e ∈ default [] (d2 !! "roles"))
  ∧ result (request_user_has_implicit_access_via_jwt example_settings (Some d1)
              "coupon-management" (Some "acct-2"))
    = result (request_user_has_implicit_access_via_jwt example_settings (Some d2)
                "coupon-management" (Some "acct-2")).
Proof.
  intros d1 d2.
  assert (Hsame : ∀ e, e ∈ default [] (d1 !! "roles") ↔ e ∈ default [] (d2 !! "roles")).
  { intros e.
    change (default [] (d1 !! "roles"))
      with ["coupon-manager:acct-1"; "enterprise_admin:acct-2"].
    replace (default [] (d2 !! "roles"))
      with ["enterprise_admin:acct-2"; "coupon-manager:acct-1"; "enterprise_admin:acct-2"]
      by (vm_compute; reflexivity).
    rewrite !elem_of_cons, !elem_of_nil. tauto. }
  split; [exact Hsame|].
  exact (claims_path_order_irrelevant example_settings d1 d2 "coupon-management"
           (Some "acct-2") Hsame).
Defined.

(** ** The persistence path, row by row *)

Lemma elem_of_matching_assignments (role_assignment_class : RoleAssignmentClass)
    (user : User) (role_name : string) (a : RoleAssignment) :
  a ∈ matching_assignments role_assignment_class user role_name
  ↔ a ∈ objects role_assignment_class ∧ assignment_matches user role_name a.
Proof.
  unfold matching_assignments, assignment_matches.
  rewrite !list_elem_of_In, List.filter_In, andb_true_iff, Nat.eqb_eq, String.eqb_eq.
  done.
Qed.

Lemma elem_of_resolved_contexts (a : RoleAssignment) (x : string) :
  x ∈ resolved_contexts a ↔ assignment_covers a x.
Proof.
  unfold resolved_contexts, assignment_covers.
  destruct (get_context a) as [s|cs].
  - rewrite elem_of_singleton. split; congruence.
  - apply elem_of_list_to_set.
Qed.

Lemma elem_of_union_of_contexts (assignments : list RoleAssignment) (x : string) :
  x ∈ union_of_contexts assignments ↔ ∃ a, a ∈ assignments ∧ assignment_covers a x.
Proof.
  unfold union_of_contexts. rewrite elem_of_union_list. split.
  - intros (X & HX & Hx). apply list_elem_of_fmap in HX as (a & -> & Ha).
    exists a. split; [done|]. by apply elem_of_resolved_contexts.
  - intros (a & Ha & Hx). exists (resolved_contexts a). split.
    + apply list_elem_of_fmap. eauto.
    + by apply elem_of_resolved_contexts.
Qed.

(** The decision on a list of assignments, row by row. *)
Lemma assignments_grant_row (assignments : list RoleAssignment) (c : option string) :
  assignments_grant assignments c = true
  ↔ ∃ a, a ∈ assignments
         ∧ (context_truthy c = false
            ∨ (∃ x, c = Some x ∧ assignment_covers a x)
            ∨ assignment_covers a ALL_ACCESS_CONTEXT).
Proof.
  unfold assignments_grant. destruct assignments as [|a0 l].
  - split; [done|]. intros (a & Ha & _). by apply not_elem_of_nil in Ha.
  - destruct (context_truthy c) eqn:Htruthy.
    + destruct c as [x|]; [|done]. simpl.
      rewrite orb_true_iff, !bool_decide_eq_true, !elem_of_union_of_contexts. split.
      * intros [(a & Ha & Hx)|(a & Ha & Hall)]; exists a; split; eauto.
      * intros (a & Ha & [Hfalse|[(y & [= <-] & Hx)|Hall]]); [done|left|right]; eauto.
    + split; [|done]. intros _. exists a0. split; [apply list_elem_of_here|by left].
Qed.

Lemma database_path_granted_row (user : User) (role_name : string)
    (role_assignment_class : RoleAssignmentClass) (c : option string) :
  result (user_has_access_via_database user role_name role_assignment_class c) = Return true
  ↔ getattr_is_anonymous user = false
    ∧ ∃ a, a ∈ objects role_assignment_class
           ∧ assignment_matches user role_name a
           ∧ (context_truthy c = false
              ∨ (∃ x, c = Some x ∧ assignment_covers a x)
              ∨ assignment_covers a ALL_ACCESS_CONTEXT).
Proof.
  destruct (getattr_is_anonymous user) eqn:Hanon.
  - unfold user_has_access_via_database. rewrite Hanon. simpl. split; [done|]. by intros [? _].
  - rewrite database_path_authenticated by done. simpl. split.
    + intros [= (a & Ha & Hc)%assignments_grant_row].
      apply elem_of_matching_assignments in Ha as [Ha Hmatch]. eauto 6.
    + intros (_ & a & Ha & Hmatch & Hc). f_equal. apply assignments_grant_row.
      exists a. split; [|done]. by apply elem_of_matching_assignments.
Qed.

(** X7.  The persistence-path evaluation is granted exactly when the user is
    not anonymous and some stored assignment of that user for that role name
    exists and, if a (non-empty) context is requested, covers that context or
    the wildcard. *)
Theorem database_path_granted_iff_row (user : User) (role_name : string)
    (role_assignment_class : RoleAssignmentClass) (c : option string) :
  result (user_has_access_via_database user role_name role_assignment_class c) = Return true
  ↔ getattr_is_anonymous user = false
    ∧ ∃ a, a ∈ objects role_assignment_class
           ∧ assignment_matches user role_name a
           ∧ (context_truthy c = false
              ∨ (∃ x, c = Some x ∧ assignment_covers a x)
              ∨ assignment_covers a ALL_ACCESS_CONTEXT).
Proof. apply database_path_granted_row. Qed.

(** The run depends on the table through the selected assignments only. *)
Lemma database_path_same_matching (user : User) (role_name : string)
    (cls1 cls2 : RoleAssignmentClass) (c : option string) :
  matching_assignments cls1 user role_name = matching_assignments cls2 user role_name →
  user_has_access_via_database user role_name cls1 c
  = user_has_access_via_database user role_name cls2 c.
Proof.
  intros Hsame. destruct (getattr_is_anonymous user) eqn:Hanon.
  - unfold user_has_access_via_database. by rewrite Hanon.
  - rewrite !database_path_authenticated by done. by rewrite Hsame.
Qed.

(** X8.  An assignment of another user, or for another role name, does not
    change the run for this user and role name, wherever in the table it is
    stored: no grant leaks from one user or role to another. *)
Theorem database_path_isolation (user : User) (role_name : string)
    (cls1 cls2 : RoleAssignmentClass) (before after : list RoleAssignment)
    (a : RoleAssignment) (c : option string) :
  objects cls1 = before ++ after →
  objects cls2 = before ++ a :: after →
  ¬ assignment_matches user role_name a →
  user_has_access_via_database user role_name cls2 c
  = user_has_access_via_database user role_name cls1 c.
Proof.
  intros H1 H2 Hother. apply database_path_same_matching.
  unfold matching_assignments. rewrite H1, H2, !List.filter_app. simpl.
  destruct (Nat.eqb (assignment_user a) (pk user) && String.eqb (role__name a) role_name)
    eqn:Hmatch; [|done].
  exfalso. apply Hother. unfold assignment_matches.
  apply andb_true_iff in Hmatch as [Huser Hrole].
  by apply Nat.eqb_eq in Huser; apply String.eqb_eq in Hrole.
Qed.

Lemma database_path_isolation_witness :
  objects example_assignments_own
    = [ {| assignment_user := 7; role__name := "coupon-management";
           get_context := Many ["acct-1"; "acct-2"] |} ] ++ []
  ∧ user_has_access_via_database example_user "coupon-management" example_assignments
      (Some "acct-3")
    = user_has_access_via_database example_user "coupon-management" example_assignments_own
        (Some "acct-3")
  ∧ result (user_has_access_via_database example_user "coupon-management"
              example_assignments (Some "acct-3")) = Return false.
Proof.
  split; [reflexivity|]. split; [|reflexivity].
  apply (database_path_isolation example_user "coupon-management"
           example_assignments_own example_assignments
           [ {| assignment_user := 7; role__name := "coupon-management";
                get_context := Many ["acct-1"; "acct-2"] |} ] []
           {| assignment_user := 8; role__name := "coupon-management";
              get_context := Single "*" |}).
  - reflexivity.
  - reflexivity.
  - intros [Huser _]. discriminate Huser.
Defined.

(** X9.  Storing further assignments never revokes access: when every row
    of one table is also in another, what the first grants a user the second
    grants too. *)
Theorem database_path_monotone (user : User) (role_name : string)
    (cls1 cls2 : RoleAssignmentClass) (c : option string) :
  (∀ a, a ∈ objects cls1 → a ∈ objects cls2) →
  result (user_has_access_via_database user role_name cls1 c) = Return true →
  result (user_has_access_via_database user role_name cls2 c) = Return true.
Proof.
  intros Hsub (Hanon & a & Ha & Hrest)%database_path_granted_row.
  apply database_path_granted_row. split; [done|]. exists a. split; [by apply Hsub|done].
Qed.

Lemma database_path_monotone_witness :
  (∀ a, a ∈ objects example_assignments_own → a ∈ objects example_assignments)
  ∧ result (user_has_access_via_database example_user "coupon-management"
              example_assignments_own (Some "acct-2")) = Return true
  ∧ result (user_has_access_via_database example_user "coupon-management"
              example_assignments (Some "acct-2")) = Return true.
Proof.
  assert (Hsub : ∀ a, a ∈ objects example_assignments_own → a ∈ objects example_assignments).
  { intros a Ha. apply list_elem_of_singleton in Ha as ->. apply list_elem_of_here. }
  assert (Hgranted : result (user_has_access_via_database example_user "coupon-management"
                               example_assignments_own (Some "acct-2")) = Return true)
    by (vm_compute; reflexivity).
  split; [exact Hsub|]. split; [exact Hgranted|].
  exact (database_path_monotone example_user "coupon-management" example_assignments_own
           example_assignments (Some "acct-2") Hsub Hgranted).
Defined.

Lemma assignments_grant_same_rows (l1 l2 : list RoleAssignment) (c : option string) :
  (∀ a, a ∈ l1 ↔ a ∈ l2) → assignments_grant l1 c = assignments_grant l2 c.
Proof.
  intros Hsame. apply eq_true_iff_eq. rewrite !assignments_grant_row.
  split; intros (a & Ha & Hc); exists a; (split; [by apply Hsame|done]).
Qed.

(** X10.  The run does not depend on the order in which the rows are stored
    or returned, nor on a row being stored twice: two tables with the same
    rows give the same run. *)
Theorem database_path_row_order_irrelevant (user : User) (role_name : string)
    (cls1 cls2 : RoleAssignmentClass) (c : option string) :
  (∀ a, a ∈ objects cls1 ↔ a ∈ objects cls2) →
  user_has_access_via_database user role_name cls1 c
  = user_has_access_via_database user role_name cls2 c.
Proof.
  intros Hsame. destruct (getattr_is_anonymous user) eqn:Hanon.
  - unfold user_has_access_via_database. by rewrite Hanon.
  - rewrite !database_path_authenticated by done. do 2 f_equal.
    apply assignments_grant_same_rows. intros a.
    rewrite !elem_of_matching_assignments. by rewrite Hsame.
Qed.

Lemma database_path_row_order_irrelevant_witness :
  (∀ a, a ∈ objects example_assignments ↔ a ∈ objects example_assignments_reordered)
  ∧ user_has_access_via_database example_user "coupon-management" example_assignments
      (Some "acct-2")
    = user_has_access_via_database example_user "coupon-management"
        example_assignments_reordered (Some "acct-2").
Proof.
  assert (Hsame : ∀ a, a ∈ objects example_assignments
                       ↔ a ∈ objects example_assignments_reordered).
  { intros a. unfold example_assignments, example_assignments_reordered, objects.
    rewrite !elem_of_cons, !elem_of_nil. tauto. }
  split; [exact Hsame|].
  exact (database_path_row_order_irrelevant example_user "coupon-management"
           example_assignments example_assignments_reordered (Some "acct-2") Hsame).
Defined.

(** ** Strings: where the extractor and the builder cut *)

Lemma occurs_before_first (sep : ascii) (s : string) : occurs sep (before_first sep s) = false.
Proof.
  induction s as [|x s IH]; simpl; [done|].
  destruct (Ascii.eqb x sep) eqn:Hx; simpl; [done|]. by rewrite Hx.
Qed.

Lemma before_first_app_occurs (sep : ascii) (r x : string) :
  occurs sep r = true → before_first sep (r +:+ x) = before_first sep r.
Proof.
  induction r as [|y r IH]; simpl; [done|].
  destruct (Ascii.eqb y sep); simpl; [done|]. intros Hr. by rewrite IH.
Qed.

Lemma partition_found (sep : ascii) (s : string) :
  (partition sep s).1.2 = if occurs sep s then String sep "" else "".
Proof.
  induction s as [|x s IH]; simpl; [done|].
  destruct (Ascii.eqb x sep); simpl; [done|].
  by destruct (partition sep s) as [[before found] after].
Qed.

Lemma rsplit1_None (sep : ascii) (s : string) :
  rsplit1 sep s = None ↔ occurs sep s = false.
Proof.
  induction s as [|x s IH]; simpl; [done|].
  destruct (rsplit1 sep s) as [[before after]|].
  - split; [done|]. intros [_ Hs]%orb_false_elim. by apply IH in Hs.
  - rewrite (proj1 IH eq_refl), orb_false_r. by destruct (Ascii.eqb x sep).
Qed.

Lemma rsplit1_Some (sep : ascii) (s m f : string) :
  rsplit1 sep s = Some (m, f) → s = m +:+ String sep f ∧ occurs sep f = false.
Proof.
  revert m. induction s as [|x s IH]; intros m; simpl; [done|].
  destruct (rsplit1 sep s) as [[before after]|] eqn:Hs.
  - intros [= <- <-]. destruct (IH before eq_refl) as [-> Hf]. done.
  - destruct (Ascii.eqb x sep) eqn:Hx; [|done]. intros [= <- <-].
    apply Ascii.eqb_eq in Hx as ->. split; [done|]. by apply rsplit1_None.
Qed.

(** X11.  An entry the builder formats as [role:context] is read back by the
    extractor's [partition] as that role and that context, whatever the
    context holds (colons too), exactly when the role string has no colon;
    with a colon in the role string the extractor reads another role name. *)
Theorem entry_round_trip (role_string context : string) :
  (occurs ":" role_string = false →
     partition ":" (format_contextual_role role_string context)
     = (role_string, ":", context))
  ∧ (occurs ":" role_string = true →
     entry_role (format_contextual_role role_string context) ≠ role_string).
Proof.
  unfold format_contextual_role, entry_role.
  change (":" +:+ context) with (String ":" context). split.
  - intros Hcolon.
    destruct (partition_before_after ":" (role_string +:+ String ":" context)) as [Hb Ha].
    pose proof (partition_found ":" (role_string +:+ String ":" context)) as Hf.
    destruct (partition ":" (role_string +:+ String ":" context)) as [[b found] a].
    simpl in *. rewrite before_first_app in Hb by done.
    rewrite after_first_app in Ha by done. subst b a. do 2 f_equal. rewrite Hf.
    clear -Hcolon. induction role_string as [|x r IH]; simpl in *.
    + done.
    + apply orb_false_elim in Hcolon as [Hx Hr]. rewrite Hx. simpl. by apply IH.
  - intros Hcolon Heq.
    rewrite (proj1 (partition_before_after _ _)), before_first_app_occurs in Heq by done.
    pose proof (occurs_before_first ":" role_string) as Hnone.
    rewrite Heq in Hnone. congruence.
Qed.

Lemma entry_round_trip_witness :
  occurs ":" "enterprise_admin" = false
  ∧ partition ":" (format_contextual_role "enterprise_admin" "course-v1:edX+Demo")
    = ("enterprise_admin", ":", "course-v1:edX+Demo")
  ∧ occurs ":" "course:staff" = true
  ∧ entry_role (format_contextual_role "course:staff" "acct-1") ≠ "course:staff".
Proof.
  destruct (entry_round_trip "enterprise_admin" "course-v1:edX+Demo") as [Hback _].
  destruct (entry_round_trip "course:staff" "acct-1") as [_ Hlost].
  split; [reflexivity|]. split; [exact (Hback eq_refl)|].
  split; [reflexivity|]. exact (Hlost eq_refl).
Defined.

(** ** The builder: failures and composition *)

Lemma exn_caught_or_not (e : exn) :
  (e = ImportError ∨ e = AttributeError) ∨ (e ≠ ImportError ∧ e ≠ AttributeError).
Proof. destruct e; (by left; eauto) || (by right). Qed.

(** A locator yields exactly when resolving it returns a source that returns
    for the user. *)
Lemma locator_yields_resolve (rt : Runtime) (user : User) (loc : string) :
  locator_yields rt user loc
  ↔ ∃ g pairs, result (resolve_role_func rt loc) = Return g ∧ g user = Return pairs.
Proof.
  unfold locator_yields.
  destruct (rsplit1 "." loc) as [[m f]|] eqn:Hsplit.
  - destruct (first_attempt rt m f) as [g|e] eqn:Hfirst.
    + rewrite (resolve_callable rt loc m f g) by done. simpl. split.
      * intros (m' & f' & source & pairs & Hs & Hpairs & Hcase).
        injection Hs as <- <-. rewrite Hfirst in Hcase.
        destruct Hcase as [[= <-]|(e & model & ? & _)]; [eauto|done].
      * intros (g' & pairs & [= <-] & Hpairs). exists m, f, g, pairs. eauto.
    + destruct (exn_caught_or_not e) as [He|[Himport Hattr]].
      * destruct (app_models rt !! (m, f)) as [model|] eqn:Hmodel.
        -- rewrite (resolve_model rt loc m f e model) by done. simpl. split.
           ++ intros (m' & f' & source & pairs & Hs & Hpairs & Hcase).
              injection Hs as <- <-. rewrite Hfirst, Hmodel in Hcase.
              destruct Hcase as [?|(e' & model' & _ & _ & [= <-] & ->)]; [done|eauto].
           ++ intros (g' & pairs & [= <-] & Hpairs).
              exists m, f, (get_assignments model), pairs.
              split; [done|]. split; [done|]. right. exists e, model. eauto.
        -- rewrite (resolve_neither rt loc m f e) by done. simpl. split.
           ++ intros (m' & f' & source & pairs & Hs & Hpairs & Hcase).
              injection Hs as <- <-. rewrite Hfirst, Hmodel in Hcase.
              by destruct Hcase as [?|(e' & model' & _ & _ & ? & _)].
           ++ by intros (g' & pairs & ? & _).
      * rewrite (resolve_other_exception rt loc m f e) by done. simpl. split.
        -- intros (m' & f' & source & pairs & Hs & Hpairs & Hcase).
           injection Hs as <- <-. rewrite Hfirst in Hcase.
           destruct Hcase as [?|(e' & model' & [= <-] & [->| ->] & _)]; done.
        -- by intros (g' & pairs & ? & _).
  - split.
    + by intros (m & f & source & pairs & ? & _).
    + rewrite resolve_no_dot by done. by intros (g & pairs & ? & _).
Qed.

Lemma role_classes_loop_returns (rt : Runtime) (user : User) (locs : list string)
    (role_auth_claim : list string) :
  (∃ claim, result (role_classes_loop rt user locs role_auth_claim) = Return claim)
  ↔ Forall (locator_yields rt user) locs.
Proof.
  revert role_auth_claim.
  induction locs as [|loc locs IH]; intros role_auth_claim.
  - split; [done|]. intros _. by eexists.
  - cbn [role_classes_loop]. rewrite Forall_cons, locator_yields_resolve.
    destruct (resolve_role_func rt loc) as [t [g|e']] eqn:Hresolve.
    + rewrite Py_bind_return. simpl. unfold role_func_loop, run_outcome.
      destruct (g user) as [pairs|e'] eqn:Hpairs.
      * rewrite !Py_bind_return. simpl. rewrite IH. split; [|tauto].
        intros Hrest. split; [|done]. exists g, pairs. done.
      * rewrite !Py_bind_raise. simpl. split.
        -- by intros [claim Hclaim].
        -- intros [(g' & pairs & [= <-] & Hpairs') _]. congruence.
    + rewrite Py_bind_raise. simpl. split.
      * by intros [claim Hclaim].
      * by intros [(g & pairs & ? & _) _].
Qed.

(** X13.  The builder returns a claim list exactly when every configured
    locator can be split at a dot, resolves to a source (the object of the
    first attempt, or the model after an [ImportError] or [AttributeError])
    and that source yields its pairs for the user without raising; one
    locator for which that fails makes the whole call raise, with no partial
    list. *)
Theorem builder_returns_iff_all_yield (settings : Settings) (rt : Runtime) (user : User) :
  (∃ claim, result (create_role_auth_claim_for_user settings rt user) = Return claim)
  ↔ Forall (locator_yields rt user) (SYSTEM_WIDE_ROLE_CLASSES settings).
Proof. apply role_classes_loop_returns. Qed.

Lemma role_classes_loop_from_empty (rt : Runtime) (user : User) (locs : list string)
    (role_auth_claim : list string) :
  role_classes_loop rt user locs role_auth_claim
  = role_classes_loop rt user locs [] ≫= λ claim, mret (role_auth_claim ++ claim).
Proof.
  rewrite !role_classes_loop_sources, Py_bind_assoc. apply Py_bind_ext. intros pairs.
  rewrite Py_bind_ret_l.
  by rewrite (role_auth_claim_loop_app pairs role_auth_claim),
             (role_auth_claim_loop_app pairs []).
Qed.

(** X14.  The builder works locator by locator: for a list of locators made
    of two lists, when the first list raises the whole call raises the same
    way after the same calls, the second list untouched; when both return,
    the whole call returns the two outputs one after the other, after the
    calls of both. *)
Theorem builder_composition (s1 s2 s12 : Settings) (rt : Runtime) (user : User) :
  SYSTEM_WIDE_ROLE_CLASSES s12 = SYSTEM_WIDE_ROLE_CLASSES s1 ++ SYSTEM_WIDE_ROLE_CLASSES s2 →
  (∀ t1 e, create_role_auth_claim_for_user s1 rt user = MkPy t1 (Raise e) →
     create_role_auth_claim_for_user s12 rt user = MkPy t1 (Raise e))
  ∧ (∀ t1 t2 l1 l2,
       create_role_auth_claim_for_user s1 rt user = MkPy t1 (Return l1) →
       create_role_auth_claim_for_user s2 rt user = MkPy t2 (Return l2) →
       create_role_auth_claim_for_user s12 rt user = MkPy (t1 ++ t2) (Return (l1 ++ l2))).
Proof.
  unfold create_role_auth_claim_for_user. intros ->.
  rewrite role_classes_loop_app. split.
  - intros t1 e ->. done.
  - intros t1 t2 l1 l2 -> H2. rewrite Py_bind_return.
    rewrite role_classes_loop_from_empty, H2, Py_bind_return. simpl.
    by rewrite app_nil_r.
Qed.

Lemma builder_composition_witness :
  create_role_auth_claim_for_user
    (example_locator_settings ["roles.Assignment"; "roles.Assignment"])
    example_model_runtime example_user
  = MkPy ([ImportModule "roles"; GetModel "roles" "Assignment"]
          ++ [ImportModule "roles"; GetModel "roles" "Assignment"])
         (Return (["coupon-manager:acct-1"; "coupon-manager:acct-2"]
                  ++ ["coupon-manager:acct-1"; "coupon-manager:acct-2"]))
  ∧ create_role_auth_claim_for_user
      (example_locator_settings ["nodots"; "roles.Assignment"])
      example_model_runtime example_user
    = MkPy [] (Raise ValueError).
Proof.
  split.
  - destruct (builder_composition (example_locator_settings ["roles.Assignment"])
                (example_locator_settings ["roles.Assignment"])
                (example_locator_settings ["roles.Assignment"; "roles.Assignment"])
                example_model_runtime example_user eq_refl) as [_ Hboth].
    apply Hboth; vm_compute; reflexivity.
  - destruct (builder_composition (example_locator_settings ["nodots"])
                (example_locator_settings ["roles.Assignment"])
                (example_locator_settings ["nodots"; "roles.Assignment"])
                example_model_runtime example_user eq_refl) as [Hfail _].
    apply Hfail. vm_compute. reflexivity.
Defined.

Lemma resolve_trace_head (rt : Runtime) (loc m f : string) :
  rsplit1 "." loc = Some (m, f) →
  ∃ t, trace (resolve_role_func rt loc) = ImportModule m :: t.
Proof.
  intros Hsplit. rewrite (resolve_split rt loc m f Hsplit). unfold try_except. simpl.
  destruct (first_attempt rt m f) as [g|e]; simpl; [by eexists|].
  destruct (is_import_or_attribute_error e); simpl; by eexists.
Qed.

(** X15.  Resolving a locator raises [ValueError] before any import exactly
    when the locator has no dot; otherwise the locator is cut at its last
    dot (the module name may hold dots, the function name holds none) and
    the first call is the import of the module name. *)
Theorem locator_split_at_last_dot (rt : Runtime) (loc : string) :
  (resolve_role_func rt loc = MkPy [] (Raise ValueError) ↔ occurs "." loc = false)
  ∧ (∀ m f, rsplit1 "." loc = Some (m, f) →
       loc = m +:+ "." +:+ f
       ∧ occurs "." f = false
       ∧ ∃ t, trace (resolve_role_func rt loc) = ImportModule m :: t).
Proof.
  split.
  - rewrite <- rsplit1_None.
    destruct (rsplit1 "." loc) as [[m f]|] eqn:Hsplit.
    + split; [|done]. intros Hresolve.
      destruct (resolve_trace_head rt loc m f Hsplit) as [t Ht].
      by rewrite Hresolve in Ht.
    + by rewrite resolve_no_dot.
  - intros m f Hsplit. destruct (rsplit1_Some "." loc m f Hsplit) as [Hloc Hf].
    split; [done|]. split; [done|]. by apply (resolve_trace_head rt loc m f).
Qed.

Lemma locator_split_at_last_dot_witness :
  rsplit1 "." "enterprise.models.get_roles" = Some ("enterprise.models", "get_roles")
  ∧ "enterprise.models.get_roles" = "enterprise.models" +:+ "." +:+ "get_roles"
  ∧ occurs "." "get_roles" = false
  ∧ resolve_role_func example_model_runtime "nodots" = MkPy [] (Raise ValueError)
  ∧ resolve_role_func example_model_runtime ".Assignment"
    = MkPy [ImportModule EmptyString] (Raise ValueError).
Proof.
  destruct (locator_split_at_last_dot example_model_runtime "enterprise.models.get_roles")
    as [_ Hcut].
  destruct (locator_split_at_last_dot example_model_runtime "nodots") as [Hraise _].
  destruct (Hcut "enterprise.models" "get_roles" eq_refl) as (Heq & Hnodot & _).
  split; [reflexivity|]. split; [exact Heq|]. split; [exact Hnodot|].
  split; [apply Hraise; reflexivity|reflexivity].
Defined.

(** ** From the builder to the claims path *)

Lemma claim_entry_read_back (role_string c : string) :
  occurs ":" role_string = false →
  entry_role (claim_entry role_string c) = role_string
  ∧ entry_context (claim_entry role_string c) = c.
Proof.
  intros Hcolon. unfold entry_role, entry_context.
  destruct (partition_before_after ":" (claim_entry role_string c)) as [-> ->].
  pose proof (reference_split_claim_entry role_string c Hcolon) as Hsplit.
  unfold reference_split in Hsplit. by injection Hsplit as -> ->.
Qed.

Lemma elem_of_built_claim (pairs : list (string * source_context))
    (role_string : string) (context : source_context) (c : string) :
  (role_string, context) ∈ pairs →
  c ∈ advertised_contexts context →
  claim_entry role_string c ∈ foldl role_auth_claim_step [] pairs.
Proof.
  intros Hpair Hc. rewrite role_auth_claim_loop_app. simpl.
  apply list_elem_of_bind. exists (role_string, context). split; [|done].
  rewrite role_auth_claim_step_advertised. apply list_elem_of_fmap. eauto.
Qed.

(** A token built for a user grants the feature roles of a yielded pair. *)
Lemma built_token_grants_context (settings : Settings)
    (pairs : list (string * source_context)) (role_string : string)
    (context : source_context) (F : string) (d : gmap string (list string))
    (c0 : string) (c : option string) :
  (role_string, context) ∈ pairs →
  occurs ":" role_string = false →
  F ∈ default [] (SYSTEM_TO_FEATURE_ROLE_MAPPING settings !! role_string) →
  d !! "roles" = Some (foldl role_auth_claim_step [] pairs) →
  c0 ∈ advertised_contexts context →
  context_truthy c = false ∨ c = Some c0 ∨ c0 = ALL_ACCESS_CONTEXT →
  result (request_user_has_implicit_access_via_jwt settings (Some d) F c) = Return true.
Proof.
  intros Hpair Hcolon HF Hroles Hc0 Hc.
  destruct (claim_entry_read_back role_string c0 Hcolon) as [Hrole Hctx].
  apply claims_path_granted_entry.
  - intros ->. by rewrite lookup_empty in Hroles.
  - exists (claim_entry role_string c0). rewrite Hroles, Hrole, Hctx. simpl.
    split; [by eapply elem_of_built_claim|done].
Qed.

Lemma elem_of_advertised_items (items : list string) (c : string) :
  c ∈ items → c ∈ advertised_contexts (Items items).
Proof. destruct items as [|i items]; [by intros ?%not_elem_of_nil|done]. Qed.

(** X16.  A token whose roles claim is the list the builder returned grants
    what the sources yielded: for a yielded pair whose role string has no
    colon and for a feature role its role string maps to, the evaluation
    without a context is granted unless the pair's context is an iterator
    that yields nothing (for which the builder writes no entry); the
    evaluation for the pair's context (a string, or any item of an iterable)
    is granted; and when the pair's context is or contains the wildcard the
    evaluation is granted for every context. *)
Theorem built_token_grants (settings : Settings) (rt : Runtime) (user : User)
    (t : list event) (pairs : list (string * source_context))
    (role_string : string) (context : source_context) (F : string)
    (claim : list string) (d : gmap string (list string)) :
  sources_yield rt user (SYSTEM_WIDE_ROLE_CLASSES settings) = MkPy t (Return pairs) →
  (role_string, context) ∈ pairs →
  occurs ":" role_string = false →
  F ∈ default [] (SYSTEM_TO_FEATURE_ROLE_MAPPING settings !! role_string) →
  result (create_role_auth_claim_for_user settings rt user) = Return claim →
  d !! "roles" = Some claim →
  (context ≠ Iterator [] →
     result (request_user_has_implicit_access_via_jwt settings (Some d) F None) = Return true)
  ∧ (∀ c, context = Scalar c →
       result (request_user_has_implicit_access_via_jwt settings (Some d) F (Some c))
       = Return true)
  ∧ (∀ items c, context = Items items ∨ context = Iterator items → c ∈ items →
       result (request_user_has_implicit_access_via_jwt settings (Some d) F (Some c))
       = Return true)
  ∧ (context = Scalar ALL_ACCESS_CONTEXT
     ∨ (∃ items, (context = Items items ∨ context = Iterator items)
                 ∧ ALL_ACCESS_CONTEXT ∈ items) →
     ∀ c, result (request_user_has_implicit_access_via_jwt settings (Some d) F c)
          = Return true).
Proof.
  intros Hyield Hpair Hcolon HF Hbuilt Hroles.
  rewrite (create_role_auth_claim_of_sources settings rt user t pairs Hyield) in Hbuilt.
  injection Hbuilt as <-.
  assert (Hitems : ∀ items c, context = Items items ∨ context = Iterator items →
                     c ∈ items → c ∈ advertised_contexts context).
  { intros items c [-> | ->] Hc; [by apply elem_of_advertised_items|done]. }
  repeat split.
  - intros Hsome.
    assert (∃ c0, c0 ∈ advertised_contexts context) as [c0 Hc0].
    { destruct context as [|s|[|i items]|[|i items]]; try done;
        eexists; apply list_elem_of_here. }
    apply (built_token_grants_context settings pairs role_string context F d c0 None);
      try done. by left.
  - intros c ->.
    apply (built_token_grants_context settings pairs role_string (Scalar c) F d c (Some c));
      try done; [apply list_elem_of_here|by right; left].
  - intros items c Hcontext Hc.
    apply (built_token_grants_context settings pairs role_string context F d c (Some c));
      try done; [by eapply Hitems|by right; left].
  - intros [->|(items & Hcontext & Hall)] c.
    + apply (built_token_grants_context settings pairs role_string
               (Scalar ALL_ACCESS_CONTEXT) F d ALL_ACCESS_CONTEXT c);
        try done; [apply list_elem_of_here|by right; right].
    + apply (built_token_grants_context settings pairs role_string
               context F d ALL_ACCESS_CONTEXT c);
        try done; [by eapply Hitems|by right; right].
Qed.

Lemma built_token_grants_witness :
  let pairs := [("enterprise_admin", Iterator ["acct-1"; "course-v1:edX+Demo"])] in
  let rt := example_runtime pairs in
  let d := example_jwt ["enterprise_admin:acct-1"; "enterprise_admin:course-v1:edX+Demo"] in
  sources_yield rt example_user (SYSTEM_WIDE_ROLE_CLASSES example_settings)
    = MkPy [ImportModule "roles.sources"] (Return pairs)
  ∧ result (create_role_auth_claim_for_user example_settings rt example_user)
    = Return ["enterprise_admin:acct-1"; "enterprise_admin:course-v1:edX+Demo"]
  ∧ result (request_user_has_implicit_access_via_jwt example_settings (Some d)
              "data_api_access" None) = Return true
  ∧ result (request_user_has_implicit_access_via_jwt example_settings (Some d)
              "data_api_access" (Some "course-v1:edX+Demo")) = Return true.
Proof.
  intros pairs rt d.
  assert (Hyield : sources_yield rt example_user (SYSTEM_WIDE_ROLE_CLASSES example_settings)
                   = MkPy [ImportModule "roles.sources"] (Return pairs))
    by (vm_compute; reflexivity).
  assert (Hbuilt : result (create_role_auth_claim_for_user example_settings rt example_user)
                   = Return ["enterprise_admin:acct-1"; "enterprise_admin:course-v1:edX+Demo"])
    by (vm_compute; reflexivity).
  destruct (built_token_grants example_settings rt example_user _ pairs
              "enterprise_admin" (Iterator ["acct-1"; "course-v1:edX+Demo"])
              "data_api_access"
              ["enterprise_admin:acct-1"; "enterprise_admin:course-v1:edX+Demo"] d Hyield)
    as (Hnone & _ & Hitem & _).
  - apply list_elem_of_here.
  - reflexivity.
  - vm_compute. apply list_elem_of_further, list_elem_of_here.
  - exact Hbuilt.
  - vm_compute. reflexivity.
  - split; [exact Hyield|]. split; [exact Hbuilt|]. split; [apply Hnone; discriminate|].
    apply (Hitem ["acct-1"; "course-v1:edX+Demo"]); [right; reflexivity|].
    apply list_elem_of_further, list_elem_of_here.
Defined.


